(* ===================================================================== *)
(* The Binance account-connection and order-entry workflow               *)
(* (component BinanceTradingInterface, src/route.ts lines 52-262).       *)
(*                                                                       *)
(* The component is a React function component: six state slots, three   *)
(* async handlers (connectBinance, fetchBalances, placeOrder) and a      *)
(* render function that decides which controls exist and which are       *)
(* disabled.  The embedding keeps that shape:                            *)
(*   - JS values that cross the untyped boundary (`response.json()` is   *)
(*     `any`) are a small inductive type, numbers are binary64 floats;   *)
(*   - a handler is a computation in a state/trace/exception monad over  *)
(*     the component state; every async handler is cut at its `await`    *)
(*     into the part that runs at the call and the part that runs when   *)
(*     the promise settles;                                              *)
(*   - the event loop is a step function on the component state plus     *)
(*     the list of requests in flight and whether the page is still      *)
(*     mounted (a render that throws unmounts it).                       *)
(*                                                                       *)
(* Two neighbours of the component are embedded as well: the            *)
(* phone-verification route of the same file (POST, route.ts lines       *)
(* 3-26), in a writer/exception monad of its own, and the page that      *)
(* mounts the component (TradingDashboard, src/unnamed/part_003), as a   *)
(* step function on its state slots.                                     *)
(* ===================================================================== *)

From Stdlib Require Import PrimFloat.
From stdpp Require Import gmap strings list.

Set Warnings "-register-all,-inexact-float".
Open Scope string_scope.
Open Scope nat_scope.
Open Scope list_scope.

(* --------------------------------------------------------------------- *)
(* JavaScript values                                                     *)
(* --------------------------------------------------------------------- *)

(* What `JSON.parse` can produce, plus `undefined` (the value of a
   missing property). Objects are finite maps from property names. *)
Inductive jsval : Type :=
| JUndefined
| JNull
| JBool (b : bool)
| JNum (x : float)
| JStr (s : string)
| JArr (items : list jsval)
| JObj (props : gmap string jsval).

(* Errors a promise of this component can reject with. *)
Inductive JsError : Type :=
| NetworkFailure   (* `fetch` rejected *)
| SyntaxError      (* `response.json()` rejected: the body is not JSON *)
| TypeError.       (* property read on null or undefined *)

(* `!s` is true exactly for the empty string. *)
Definition string_truthy (s : string) : bool :=
  match s with
  | EmptyString => false
  | String _ _ => true
  end.

(* ToBoolean, as used by `if (v)`: undefined, null, false, +0, -0, NaN
   and "" are falsy; every object and array (also `[]`) is truthy. *)
Definition truthy (v : jsval) : bool :=
  match v with
  | JUndefined | JNull => false
  | JBool b => b
  | JNum x => negb (PrimFloat.eqb x 0 || negb (PrimFloat.eqb x x))
  | JStr s => string_truthy s
  | JArr _ | JObj _ => true
  end.

(* `data.balances`: a TypeError on null and undefined; the own property of
   a parsed object, `undefined` when it has none; `undefined` on numbers,
   strings, booleans and arrays (no prototype defines `balances`). *)
Definition data_balances (data : jsval) : JsError + jsval :=
  match data with
  | JUndefined | JNull => inl TypeError
  | JObj props => inr (default JUndefined (props !! "balances"))
  | JBool _ | JNum _ | JStr _ | JArr _ => inr JUndefined
  end.

(* --------------------------------------------------------------------- *)
(* Data model (route.ts lines 39-63)                                     *)
(* --------------------------------------------------------------------- *)

Record Balance : Type := {
  asset : string;
  free : string;
  locked : string
}.

(* A Balance as it appears inside a parsed gateway response. *)
Definition balance_js (b : Balance) : jsval :=
  JObj (<["asset" := JStr (asset b)]>
       (<["free" := JStr (free b)]>
       (<["locked" := JStr (locked b)]> ∅))).

Definition balances_js (bs : list Balance) : jsval := JArr (balance_js <$> bs).

Inductive Side : Type := BUY | SELL.
Inductive OrderType : Type := MARKET | LIMIT.

Record OrderData : Type := {
  symbol : string;
  side : Side;
  type : OrderType;
  quantity : float
}.

(* The six `useState` slots. `balances` is declared `Balance[]`, but its
   setter is fed `data.balances` of type `any` with no check, so the slot
   holds whatever JS value arrived. *)
Record Component : Type := {
  isConnected : bool;
  balances : jsval;
  apiKey : string;
  apiSecret : string;
  loading : bool;
  orderData : OrderData
}.

Definition initial : Component := {|
  isConnected := false;
  balances := JArr [];
  apiKey := "";
  apiSecret := "";
  loading := false;
  orderData := {| symbol := "BTCUSDT"; side := BUY; type := MARKET; quantity := 0.001 |}
|}.

(* --------------------------------------------------------------------- *)
(* The gateway boundary                                                  *)
(* --------------------------------------------------------------------- *)

Inductive Request : Type :=
| PostConnect (api_key api_secret user_id : string)  (* POST /api/binance/connect *)
| GetBalances (user_id : string)                     (* GET /api/binance/balances?user_id=.. *)
| PostOrder (order : OrderData) (user_id : string).  (* POST /api/binance/order *)

(* A request records the values of the object literal its handler hands to
   `JSON.stringify`; `request_body` is what that call puts on the wire. *)

(* `JSON.stringify` on a number: NaN and the infinities are written `null`,
   `-0` is written `0`, any other number as a literal that reads back as
   the same number. *)
Definition number_json (x : float) : jsval :=
  if is_nan x || is_infinity x then JNull
  else if PrimFloat.eqb x 0 then JNum 0
  else JNum x.

Definition side_json (s : Side) : jsval :=
  JStr match s with BUY => "BUY" | SELL => "SELL" end.

Definition type_json (t : OrderType) : jsval :=
  JStr match t with MARKET => "MARKET" | LIMIT => "LIMIT" end.

(* The JSON value of the request body: `JSON.stringify({ api_key: apiKey,
   api_secret: apiSecret, user_id: "default" })` for connect,
   `JSON.stringify({ ...orderData, user_id: "default" })` for an order,
   no body for the balances GET. *)
Definition request_body (req : Request) : option jsval :=
  match req with
  | PostConnect api_key api_secret user_id =>
      Some (JObj (<["api_key" := JStr api_key]>
                 (<["api_secret" := JStr api_secret]>
                 (<["user_id" := JStr user_id]> ∅))))
  | GetBalances _ => None
  | PostOrder order user_id =>
      Some (JObj (<["symbol" := JStr (symbol order)]>
                 (<["side" := side_json (side order)]>
                 (<["type" := type_json (type order)]>
                 (<["quantity" := number_json (quantity order)]>
                 (<["user_id" := JStr user_id]> ∅))))))
  end.

(* A resolved `fetch`: the HTTP status, and what `response.json()` settles to. *)
Record Response : Type := {
  status : nat;
  json : JsError + jsval
}.

(* `response.ok`: the status is in 200..299. *)
Definition ok (r : Response) : bool := (200 <=? status r) && (status r <=? 299).

Inductive FetchOutcome : Type :=
| Rejected                  (* network error: the promise rejects *)
| Resolved (r : Response).

(* What a handler does to the outside world, in program order. *)
Inductive Effect : Type :=
| Fetch (req : Request)
| ConsoleError (label : string) (e : JsError)
| ConsoleLog (label : string) (v : jsval).

(* --------------------------------------------------------------------- *)
(* The handler monad: component state, effect trace, exceptions          *)
(* --------------------------------------------------------------------- *)

Record Run (A : Type) : Type := {
  value : JsError + A;     (* inl e: an exception e is propagating *)
  after : Component;
  effects : list Effect
}.
Arguments value {A} _.
Arguments after {A} _.
Arguments effects {A} _.

Definition Js (A : Type) : Type := Component → Run A.

Definition ret {A} (a : A) : Js A :=
  λ c, {| value := inr a; after := c; effects := [] |}.

Definition throw {A} (e : JsError) : Js A :=
  λ c, {| value := inl e; after := c; effects := [] |}.

Definition bind {A B} (m : Js A) (k : A → Js B) : Js B :=
  λ c,
    let r := m c in
    match value r with
    | inl e => {| value := inl e; after := after r; effects := effects r |}
    | inr a =>
        let r' := k a (after r) in
        {| value := value r'; after := after r'; effects := effects r ++ effects r' |}
    end.

(* `try { body } catch (error) { handler }`: state changes and effects of
   the body before the throw are kept. *)
Definition try_catch (body : Js unit) (handler : JsError → Js unit) : Js unit :=
  λ c,
    let r := body c in
    match value r with
    | inl e =>
        let r' := handler e (after r) in
        {| value := value r'; after := after r'; effects := effects r ++ effects r' |}
    | inr _ => r
    end.

Definition read : Js Component :=
  λ c, {| value := inr c; after := c; effects := [] |}.

Definition write (f : Component → Component) : Js unit :=
  λ c, {| value := inr tt; after := f c; effects := [] |}.

Definition emit (e : Effect) : Js unit :=
  λ c, {| value := inr tt; after := c; effects := [e] |}.

(* `await p` for a promise that has settled to `x`. *)
Definition await {A} (x : JsError + A) : Js A :=
  match x with
  | inl e => throw e
  | inr a => ret a
  end.

Declare Scope js_scope.
Delimit Scope js_scope with js.
Notation "x <- m ;; k" := (bind m (λ x, k))
  (at level 100, m at next level, k at level 200, right associativity) : js_scope.
Notation "m ;; k" := (bind m (λ _, k))
  (at level 100, k at level 200, right associativity) : js_scope.
Open Scope js_scope.

(* The state setters. *)
Definition setIsConnected (b : bool) : Js unit :=
  write (λ c, {| isConnected := b; balances := balances c; apiKey := apiKey c;
                 apiSecret := apiSecret c; loading := loading c; orderData := orderData c |}).
Definition setBalances (v : jsval) : Js unit :=
  write (λ c, {| isConnected := isConnected c; balances := v; apiKey := apiKey c;
                 apiSecret := apiSecret c; loading := loading c; orderData := orderData c |}).
Definition setApiKey (s : string) : Js unit :=
  write (λ c, {| isConnected := isConnected c; balances := balances c; apiKey := s;
                 apiSecret := apiSecret c; loading := loading c; orderData := orderData c |}).
Definition setApiSecret (s : string) : Js unit :=
  write (λ c, {| isConnected := isConnected c; balances := balances c; apiKey := apiKey c;
                 apiSecret := s; loading := loading c; orderData := orderData c |}).
Definition setLoading (b : bool) : Js unit :=
  write (λ c, {| isConnected := isConnected c; balances := balances c; apiKey := apiKey c;
                 apiSecret := apiSecret c; loading := b; orderData := orderData c |}).
Definition setOrderData (o : OrderData) : Js unit :=
  write (λ c, {| isConnected := isConnected c; balances := balances c; apiKey := apiKey c;
                 apiSecret := apiSecret c; loading := loading c; orderData := o |}).

(* `console.error(label, error)` and `console.log(label, value)`. *)
Definition console_error (label : string) (e : JsError) : Js unit := emit (ConsoleError label e).
Definition console_log (label : string) (v : jsval) : Js unit := emit (ConsoleLog label v).

(* `await fetch(..)` once the request has settled to `o`. *)
Definition await_fetch (o : FetchOutcome) : Js Response :=
  match o with
  | Rejected => throw NetworkFailure
  | Resolved r => ret r
  end.

(* --------------------------------------------------------------------- *)
(* The three handlers (route.ts lines 65-114)                            *)
(* --------------------------------------------------------------------- *)

(* fetchBalances, up to `await fetch(..)`: the request leaves. *)
Definition fetchBalances_call : Js unit :=
  emit (Fetch (GetBalances "default")).

(* fetchBalances, from the settled fetch to the end. `response.ok` is not
   read. The two awaits (fetch, then json) are taken in one piece: nothing
   happens between them. *)
Definition fetchBalances_resume (o : FetchOutcome) : Js unit :=
  try_catch
    (response <- await_fetch o ;;
     data <- await (json response) ;;
     b <- await (data_balances data) ;;
     if truthy b then setBalances b else ret tt)
    (λ error, console_error "Failed to fetch balances:" error).

Definition fetchBalances (o : FetchOutcome) : Js unit :=
  fetchBalances_call ;; fetchBalances_resume o.

(* connectBinance, up to `await fetch(..)`. *)
Definition connectBinance_call : Js unit :=
  setLoading true ;;
  c <- read ;;
  emit (Fetch (PostConnect (apiKey c) (apiSecret c) "default")).

(* connectBinance, from the settled fetch to the end. `fetchBalances()` is
   called without `await`: only its part up to its own first await runs
   here, its continuation runs when the balances request settles. *)
Definition connectBinance_resume (o : FetchOutcome) : Js unit :=
  try_catch
    (response <- await_fetch o ;;
     if ok response then
       setIsConnected true ;;
       fetchBalances_call
     else ret tt)
    (λ error, console_error "Connection failed:" error) ;;
  setLoading false.

Definition connectBinance (o : FetchOutcome) : Js unit :=
  connectBinance_call ;; connectBinance_resume o.

(* placeOrder, up to `await fetch(..)`: the request takes the draft as it
   is at the click; `request_body` gives what `JSON.stringify` makes of it. *)
Definition placeOrder_call : Js unit :=
  setLoading true ;;
  c <- read ;;
  emit (Fetch (PostOrder (orderData c) "default")).

(* placeOrder, from the settled fetch to the end; `await response.json()`
   is inside the `try` and before the refresh. As in fetchBalances the two
   awaits are taken in one piece: nothing is written or sent between them. *)
Definition placeOrder_resume (o : FetchOutcome) : Js unit :=
  try_catch
    (response <- await_fetch o ;;
     if ok response then
       result <- await (json response) ;;
       console_log "Order placed:" result ;;
       fetchBalances_call
     else ret tt)
    (λ error, console_error "Order failed:" error) ;;
  setLoading false.

Definition placeOrder (o : FetchOutcome) : Js unit :=
  placeOrder_call ;; placeOrder_resume o.

(* --------------------------------------------------------------------- *)
(* The render function (route.ts lines 116-262): which controls exist    *)
(* --------------------------------------------------------------------- *)

Inductive Control : Type :=
| ApiKeyInput | ApiSecretInput | ConnectButton        (* the `!isConnected` branch *)
| RefreshButton                                        (* balances tab *)
| SymbolSelect | SideSelect | QuantityInput | OrderButton.  (* trading tab *)

(* Whether a value can be turned into a string (`'' + v` for the row key,
   the argument of `Number.parseFloat`). A parsed object with an own
   `toString` property cannot: the property is not callable and the
   inherited `valueOf` returns the object, so a TypeError is thrown. An
   array joins its elements, null and undefined as the empty string. *)
Fixpoint coerces (v : jsval) : bool :=
  match v with
  | JObj props => match props !! "toString" with Some _ => false | None => true end
  | JArr items => forallb coerces items
  | JUndefined | JNull | JBool _ | JNum _ | JStr _ => true
  end.

(* The callback of `balances.map` on one element (lines 179-193): reading
   `balance.asset` throws on null and undefined; `key={balance.asset}`,
   `Number.parseFloat(balance.free)` and `Number.parseFloat(balance.locked)`
   throw when the value has no string form. On a number, string, boolean
   or array the three reads give `undefined`, which is harmless. *)
Definition row_renders (balance : jsval) : bool :=
  match balance with
  | JUndefined | JNull => false
  | JObj props =>
      coerces (default JUndefined (props !! "asset")) &&
      coerces (default JUndefined (props !! "free")) &&
      coerces (default JUndefined (props !! "locked"))
  | JBool _ | JNum _ | JStr _ | JArr _ => true
  end.

(* Whether the render function returns. The `!isConnected` branch cannot
   throw. The other branch evaluates `balances.map(..)` whichever tab is
   open: a TypeError unless `balances` is an array (no other parsed value
   has a callable `map`), and the callback runs on every element.
   Not counted: React refuses an object as the child `{balance.asset}`, but
   only when the balances tab is the open one, which this model does not
   track; such a page is taken to go on. *)
Definition page_renders (c : Component) : bool :=
  if isConnected c then
    match balances c with
    | JArr rows => forallb row_renders rows
    | JUndefined | JNull | JBool _ | JNum _ | JStr _ | JObj _ => false
    end
  else true.

(* `{!isConnected ? (credentials form) : (tabs)}`, when the render function
   returns at all. Which of the two tabs is open is internal to the Tabs
   widget and changes nothing in the component state; both tabs' controls
   count as reachable. *)
Definition rendered (c : Component) (k : Control) : bool :=
  page_renders c &&
  match k with
  | ApiKeyInput | ApiSecretInput | ConnectButton => negb (isConnected c)
  | RefreshButton | SymbolSelect | SideSelect | QuantityInput | OrderButton => isConnected c
  end.

(* The `disabled` props: `loading || !apiKey || !apiSecret` on the connect
   button, `loading` on the order button, none elsewhere. *)
Definition disabled (c : Component) (k : Control) : bool :=
  match k with
  | ConnectButton =>
      loading c || negb (string_truthy (apiKey c)) || negb (string_truthy (apiSecret c))
  | OrderButton => loading c
  | ApiKeyInput | ApiSecretInput | RefreshButton
  | SymbolSelect | SideSelect | QuantityInput => false
  end.

(* What the user can do to the page. `TypeQuantity` carries the result of
   `Number.parseFloat(e.target.value)`, NaN included. *)
Inductive UserAction : Type :=
| TypeApiKey (text : string)
| TypeApiSecret (text : string)
| ClickConnect
| ClickRefresh
| SelectSymbol (item : string)
| SelectSide (item : Side)
| TypeQuantity (parsed : float)
| ClickOrder.

Definition control_of (a : UserAction) : Control :=
  match a with
  | TypeApiKey _ => ApiKeyInput
  | TypeApiSecret _ => ApiSecretInput
  | ClickConnect => ConnectButton
  | ClickRefresh => RefreshButton
  | SelectSymbol _ => SymbolSelect
  | SelectSide _ => SideSelect
  | TypeQuantity _ => QuantityInput
  | ClickOrder => OrderButton
  end.

(* The `SelectItem`s of the symbol select. *)
Definition symbol_items : list string := ["BTCUSDT"; "ETHUSDT"; "BNBUSDT"].

Definition offered (a : UserAction) : bool :=
  match a with
  | SelectSymbol item => bool_decide (item ∈ symbol_items)
  | _ => true
  end.

(* An action can happen when its control is on the page, not disabled, and
   the value is one the control offers. *)
Definition enabled (c : Component) (a : UserAction) : bool :=
  rendered c (control_of a) && negb (disabled c (control_of a)) && offered a.

(* The `onChange` / `onValueChange` / `onClick` props. The order-draft
   updates spread the rendered `orderData` and replace one field. *)
Definition on_action (a : UserAction) : Js unit :=
  match a with
  | TypeApiKey text => setApiKey text
  | TypeApiSecret text => setApiSecret text
  | ClickConnect => connectBinance_call
  | ClickRefresh => fetchBalances_call
  | SelectSymbol item =>
      c <- read ;;
      setOrderData {| symbol := item; side := side (orderData c);
                      type := type (orderData c); quantity := quantity (orderData c) |}
  | SelectSide item =>
      c <- read ;;
      setOrderData {| symbol := symbol (orderData c); side := item;
                      type := type (orderData c); quantity := quantity (orderData c) |}
  | TypeQuantity parsed =>
      c <- read ;;
      setOrderData {| symbol := symbol (orderData c); side := side (orderData c);
                      type := type (orderData c); quantity := parsed |}
  | ClickOrder => placeOrder_call
  end.

(* --------------------------------------------------------------------- *)
(* The event loop                                                        *)
(* --------------------------------------------------------------------- *)

(* The page: the component state, the requests that have left and not yet
   settled, oldest first, and whether the component is still mounted. A
   render that throws makes React unmount the page for good (there is no
   error boundary): no control exists any more, while the promises in
   flight still settle and run their continuations. On an unmounted page
   `component` goes on recording what the setters are called with; React
   ignores those calls. *)
Record World : Type := {
  component : Component;
  inflight : list Request;
  mounted : bool
}.

Definition start : World := {| component := initial; inflight := []; mounted := true |}.

Inductive Event : Type :=
| User (a : UserAction)
| Settle (i : nat) (o : FetchOutcome).   (* the i-th request in flight settles to o *)

(* The requests among a handler's effects. *)
Definition requests (effs : list Effect) : list Request :=
  omap (λ e, match e with Fetch req => Some req | _ => None end) effs.

(* Each endpoint is fetched at one place, so the request tells which
   handler is waiting for it. *)
Definition resume (req : Request) (o : FetchOutcome) : Js unit :=
  match req with
  | PostConnect _ _ _ => connectBinance_resume o
  | GetBalances _ => fetchBalances_resume o
  | PostOrder _ _ => placeOrder_resume o
  end.

(* Run one handler piece to its end on the page; the page then renders
   again with the new state and stays mounted if that render returns. *)
Definition dispatch (m : Js unit) (w : World) : World * list Effect :=
  let r := m (component w) in
  ({| component := after r;
      inflight := inflight w ++ requests (effects r);
      mounted := mounted w && page_renders (after r) |},
   effects r).

(* One turn of the event loop; None when the event cannot happen. A user
   action needs a mounted page; a request in flight settles either way. *)
Definition step (w : World) (ev : Event) : option (World * list Effect) :=
  match ev with
  | User a =>
      if mounted w && enabled (component w) a then Some (dispatch (on_action a) w) else None
  | Settle i o =>
      match inflight w !! i with
      | Some req =>
          Some (dispatch (resume req o)
                  {| component := component w; inflight := delete i (inflight w);
                     mounted := mounted w |})
      | None => None
      end
  end.

(* A sequence of turns, with the effects of all of them in order. *)
Fixpoint exec (w : World) (evs : list Event) : option (World * list Effect) :=
  match evs with
  | [] => Some (w, [])
  | ev :: evs' =>
      match step w ev with
      | Some (w', effs) =>
          match exec w' evs' with
          | Some (w'', effs') => Some (w'', effs ++ effs')
          | None => None
          end
      | None => None
      end
  end.

(* Counting requests in a trace. *)
Definition is_balances_fetch (e : Effect) : bool :=
  match e with Fetch (GetBalances _) => true | _ => false end.
Definition is_connect_fetch (e : Effect) : bool :=
  match e with Fetch (PostConnect _ _ _) => true | _ => false end.
Definition is_order_fetch (e : Effect) : bool :=
  match e with Fetch (PostOrder _ _) => true | _ => false end.
Definition is_console_error (e : Effect) : bool :=
  match e with ConsoleError _ _ => true | _ => false end.

Definition count (p : Effect → bool) (effs : list Effect) : nat :=
  length (List.filter p effs).

(* --------------------------------------------------------------------- *)
(* Outcomes, classified as the handlers branch on them                   *)
(* --------------------------------------------------------------------- *)

(* A connect attempt succeeds when the fetch resolves with `response.ok`. *)
Definition connect_succeeds (o : FetchOutcome) : bool :=
  match o with
  | Rejected => false
  | Resolved r => ok r
  end.

(* The value the `try` body of fetchBalances reaches `if (data.balances)`
   with, or the error that sends it to `catch`. *)
Definition fetched_balances (o : FetchOutcome) : JsError + jsval :=
  match o with
  | Rejected => inl NetworkFailure
  | Resolved r =>
      match json r with
      | inl e => inl e
      | inr data => data_balances data
      end
  end.

(* A refresh fails when nothing usable arrives: the fetch or the parse
   rejects, the body is null, or `data.balances` is missing or falsy. *)
Definition refresh_fails (o : FetchOutcome) : bool :=
  match fetched_balances o with
  | inl _ => true
  | inr b => negb (truthy b)
  end.

Definition with_balances (v : jsval) (c : Component) : Component :=
  {| isConnected := isConnected c; balances := v; apiKey := apiKey c;
     apiSecret := apiSecret c; loading := loading c; orderData := orderData c |}.

Definition with_loading (b : bool) (c : Component) : Component :=
  {| isConnected := isConnected c; balances := balances c; apiKey := apiKey c;
     apiSecret := apiSecret c; loading := b; orderData := orderData c |}.

(* Sample data: the scenario of the specification. *)
Definition btc_row : Balance := {| asset := "BTC"; free := "0.5"; locked := "0.0" |}.

Definition balances_body (v : jsval) : jsval := JObj (<["balances" := v]> ∅).

Definition http (code : nat) (body : JsError + jsval) : FetchOutcome :=
  Resolved {| status := code; json := body |}.

(* A linked account showing one BTC row. *)
Definition linked : Component := {|
  isConnected := true;
  balances := balances_js [btc_row];
  apiKey := "k";
  apiSecret := "s";
  loading := false;
  orderData := orderData initial
|}.

(* The credentials form filled in, not yet submitted. *)
Definition filled : Component := {|
  isConnected := false;
  balances := JArr [];
  apiKey := "k";
  apiSecret := "s";
  loading := false;
  orderData := orderData initial
|}.

(* --------------------------------------------------------------------- *)
(* Bookkeeping on the requests in flight                                 *)
(* --------------------------------------------------------------------- *)

(* The requests whose handler holds the `loading` flag from its call to
   its end: connectBinance and placeOrder set it, fetchBalances does not. *)
Definition holds_loading (req : Request) : bool :=
  match req with
  | PostConnect _ _ _ | PostOrder _ _ => true
  | GetBalances _ => false
  end.

Definition pending_submits (w : World) : nat :=
  length (List.filter holds_loading (inflight w)).

Definition is_connect_request (req : Request) : bool :=
  match req with
  | PostConnect _ _ _ => true
  | GetBalances _ | PostOrder _ _ => false
  end.

(* What holds of a page that is still Disconnected. *)
Definition untouched (w : World) : Prop :=
  balances (component w) = JArr [] ∧
  orderData (component w) = orderData initial ∧
  Forall (λ req, is_connect_request req = true) (inflight w).

(* placeOrder reaches its `fetchBalances()` line: the fetch resolved with
   `response.ok` and `response.json()` did not throw. *)
Definition order_succeeds (o : FetchOutcome) : bool :=
  match o with
  | Rejected => false
  | Resolved r => ok r && match json r with inl _ => false | inr _ => true end
  end.

(* The order draft as the trading tab can make it: no control writes
   `type`, and the symbol select offers `symbol_items` only. *)
Definition menu_order (o : OrderData) : Prop :=
  type o = MARKET ∧ symbol o ∈ symbol_items.

Definition with_quantity (q : float) (o : OrderData) : OrderData :=
  {| symbol := symbol o; side := side o; type := type o; quantity := q |}.

Definition with_orderData (o : OrderData) (c : Component) : Component :=
  {| isConnected := isConnected c; balances := balances c; apiKey := apiKey c;
     apiSecret := apiSecret c; loading := loading c; orderData := o |}.

(* ===================================================================== *)
(* The phone-verification route (route.ts lines 3-26)                    *)
(* ===================================================================== *)

Module PhoneVerify.

(* What can be thrown inside the route: the errors of the awaited promises
   and the RangeError of the Response constructor. *)
Inductive Thrown : Type :=
| Js (e : JsError)
| RangeError.

(* The reply of the route: status and JSON body. *)
Record Reply : Type := {
  reply_status : nat;
  reply_body : jsval
}.

Inductive ServerEffect : Type :=
| VerifyPost (phone code : jsval)
    (* POST http://localhost:8000/auth/phone/verify,
       body JSON.stringify of the object literal { phone, code } *)
| LogVerifyError (e : Thrown).
    (* console.error("Phone OTP verify error:", error) *)

(* Effects so far, and a value or the exception that is propagating. *)
Definition Task (A : Type) : Type := list ServerEffect * (Thrown + A).

Definition pure {A} (a : A) : Task A := ([], inr a).

Definition raise {A} (e : Thrown) : Task A := ([], inl e).

Definition and_then {A B} (m : Task A) (k : A → Task B) : Task B :=
  match m with
  | (effs, inl e) => (effs, inl e)
  | (effs, inr a) => let '(effs', r) := k a in (effs ++ effs', r)
  end.

Definition attempt {A} (body : Task A) (handler : Thrown → Task A) : Task A :=
  match body with
  | (effs, inl e) => let '(effs', r) := handler e in (effs ++ effs', r)
  | (effs, inr a) => (effs, inr a)
  end.

Definition perform (e : ServerEffect) : Task unit := ([e], inr tt).

(* `await p` for a promise settled to `x`. *)
Definition awaited {A} (x : JsError + A) : Task A :=
  match x with
  | inl e => raise (Js e)
  | inr a => pure a
  end.

Declare Scope task_scope.
Notation "x <- m ;; k" := (and_then m (λ x, k))
  (at level 100, m at next level, k at level 200, right associativity) : task_scope.
Notation "m ;; k" := (and_then m (λ _, k))
  (at level 100, k at level 200, right associativity) : task_scope.
Local Open Scope task_scope.

(* One name of a destructuring pattern `const { k } = v`, for a name that
   no prototype defines: a TypeError on null and undefined, the own
   property of an object, `undefined` otherwise. *)
Definition property (k : string) (v : jsval) : JsError + jsval :=
  match v with
  | JUndefined | JNull => inl TypeError
  | JObj props => inr (default JUndefined (props !! k))
  | JBool _ | JNum _ | JStr _ | JArr _ => inr JUndefined
  end.

(* The statuses with which a Response may not carry a body. *)
Definition null_body_status (st : nat) : bool :=
  (st =? 101) || (st =? 103) || (st =? 204) || (st =? 205) || (st =? 304).

(* `NextResponse.json(body, { status })`: the Response constructor throws
   a RangeError for a status outside 200..599 and a TypeError for a
   null-body status. *)
Definition NextResponse_json (body : jsval) (st : nat) : Task Reply :=
  if (st <? 200) || (599 <? st) then raise RangeError
  else if null_body_status st then raise (Js TypeError)
  else pure {| reply_status := st; reply_body := body |}.

Definition failure_message : string := "Failed to verify OTP".

(* POST, given what its awaits settle to: `request.json()`, the fetch to
   the backend, and `response.text()` (read on the not-ok branch only). *)
Definition POST (request_json : JsError + jsval) (upstream : FetchOutcome)
    (text : JsError + string) : Task Reply :=
  attempt
    (body <- awaited request_json ;;
     phone <- awaited (property "phone" body) ;;
     code <- awaited (property "code" body) ;;
     perform (VerifyPost phone code) ;;
     response <- match upstream with
                 | Rejected => raise (Js NetworkFailure)
                 | Resolved r => pure r
                 end ;;
     if negb (ok response) then
       error <- awaited text ;;
       NextResponse_json (JObj (<["error" := JStr error]> ∅)) (status response)
     else
       data <- awaited (json response) ;;
       NextResponse_json data 200)
    (λ error,
       perform (LogVerifyError error) ;;
       NextResponse_json (JObj (<["error" := JStr failure_message]> ∅)) 500).

(* The reply of the `catch` block. *)
Definition failure_reply : Reply :=
  {| reply_status := 500; reply_body := JObj (<["error" := JStr failure_message]> ∅) |}.

Definition is_verify_post (e : ServerEffect) : bool :=
  match e with VerifyPost _ _ => true | LogVerifyError _ => false end.

Definition is_log (e : ServerEffect) : bool :=
  match e with LogVerifyError _ => true | VerifyPost _ _ => false end.

End PhoneVerify.

(* Sample data: a verification request and the body of a backend success. *)
Definition verify_request : jsval :=
  JObj (<["phone" := JStr "+15550100"]> (<["code" := JStr "123456"]> ∅)).


(* Two request objects without a code; the second carries a stray field. *)
Definition phone_only : gmap string jsval := <["phone" := JStr "+15550100"]> ∅.

Definition phone_and_stray : gmap string jsval :=
  <["phone" := JStr "+15550100"]> (<["admin" := JBool true]> ∅).

(* ===================================================================== *)
(* The page that mounts the trading interface                            *)
(* (TradingDashboard, src/unnamed/part_003 lines 31-283)                 *)
(* ===================================================================== *)

Module Dashboard.

(* The `useState` slots that are ever written. `performanceData` is only
   displayed: its setter is never called. `user` is `any`, first null. *)
Record State : Type := {
  isArabic : bool;
  isAuthenticated : bool;
  user : jsval;
  showSplash : bool;
  isSystemRunning : bool
}.

Definition initial : State := {|
  isArabic := false;
  isAuthenticated := false;
  user := JNull;
  showSplash := true;
  isSystemRunning := true
|}.

(* The three returns of the render function, in the order it tests them. *)
Inductive Screen : Type :=
| Splash       (* `if (showSplash) return <SplashScreen .. />` *)
| AuthSystem   (* `if (!isAuthenticated) return <AuthSystem .. />` *)
| Main.        (* header, KPI cards and the tabs, BinanceTradingInterface among them *)

Definition screen (s : State) : Screen :=
  if showSplash s then Splash
  else if negb (isAuthenticated s) then AuthSystem
  else Main.

(* What the mounted children can call back. *)
Inductive Action : Type :=
| OnLogin                             (* splash: () => setShowSplash(false) *)
| OnRegister                          (* splash: () => setShowSplash(false) *)
| OnLanguageToggle                    (* splash: () => setIsArabic(!isArabic) *)
| OnAuthSuccess (userData : jsval)    (* auth system: handleAuthSuccess *)
| ClickLanguage                       (* header: () => setIsArabic(!isArabic) *)
| ClickSystem.                        (* header: () => setIsSystemRunning(!isSystemRunning) *)

Definition same_screen (x y : Screen) : bool :=
  match x, y with
  | Splash, Splash | AuthSystem, AuthSystem | Main, Main => true
  | _, _ => false
  end.

(* When a callback can fire. The buttons of the splash screen and of the
   header exist on their screen only. `handleAuthSuccess` is handed to the
   AuthSystem component alone, whose code is not part of these sources: it
   may call it with any data, any number of times, and possibly late, so
   the callback counts as callable from the moment the splash screen is
   gone (before that, no AuthSystem has ever been mounted). *)
Definition available (s : State) (a : Action) : bool :=
  match a with
  | OnLogin | OnRegister | OnLanguageToggle => same_screen (screen s) Splash
  | OnAuthSuccess _ => negb (showSplash s)
  | ClickLanguage | ClickSystem => same_screen (screen s) Main
  end.

(* console.log("[v0] Authentication successful:", userData) *)
Inductive Log : Type :=
| AuthenticationSuccessful (userData : jsval).

Definition handle (a : Action) (s : State) : State * list Log :=
  match a with
  | OnLogin | OnRegister =>
      ({| isArabic := isArabic s; isAuthenticated := isAuthenticated s; user := user s;
          showSplash := false; isSystemRunning := isSystemRunning s |}, [])
  | OnLanguageToggle | ClickLanguage =>
      ({| isArabic := negb (isArabic s); isAuthenticated := isAuthenticated s;
          user := user s; showSplash := showSplash s;
          isSystemRunning := isSystemRunning s |}, [])
  | OnAuthSuccess userData =>
      ({| isArabic := isArabic s; isAuthenticated := true; user := userData;
          showSplash := showSplash s; isSystemRunning := isSystemRunning s |},
       [AuthenticationSuccessful userData])
  | ClickSystem =>
      ({| isArabic := isArabic s; isAuthenticated := isAuthenticated s; user := user s;
          showSplash := showSplash s; isSystemRunning := negb (isSystemRunning s) |}, [])
  end.

Definition step (s : State) (a : Action) : option (State * list Log) :=
  if available s a then Some (handle a s) else None.

Fixpoint exec (s : State) (acts : list Action) : option (State * list Log) :=
  match acts with
  | [] => Some (s, [])
  | a :: acts' =>
      match step s a with
      | Some (s', logs) =>
          match exec s' acts' with
          | Some (s'', logs') => Some (s'', logs ++ logs')
          | None => None
          end
      | None => None
      end
  end.

(* `<BinanceTradingInterface />` sits in a tab of the main screen. *)
Definition trading_interface_mountable (s : State) : bool :=
  same_screen (screen s) Main.


Definition leaves_splash (a : Action) : bool :=
  match a with OnLogin | OnRegister => true | _ => false end.

(* The data of the last authentication success of a run, if any, and the
   log lines of all of them. *)
Fixpoint last_auth (acts : list Action) : option jsval :=
  match acts with
  | [] => None
  | a :: acts' =>
      match last_auth acts' with
      | Some d => Some d
      | None => match a with OnAuthSuccess d => Some d | _ => None end
      end
  end.

Definition auth_logs (acts : list Action) : list Log :=
  omap (λ a, match a with
             | OnAuthSuccess d => Some (AuthenticationSuccessful d)
             | _ => None
             end) acts.

End Dashboard.

(* ===================================================================== *)
(* Properties                                                            *)
(* ===================================================================== *)

Arguments ok : simpl never.

(* Unfold the handler pieces and the monad down to records. *)
Ltac run_js :=
  unfold connectBinance, connectBinance_call, connectBinance_resume,
         placeOrder, placeOrder_call, placeOrder_resume,
         fetchBalances, fetchBalances_call, fetchBalances_resume,
         setIsConnected, setBalances, setApiKey, setApiSecret, setLoading, setOrderData,
         console_error, console_log, await_fetch, await,
         try_catch, bind, ret, throw, read, write, emit;
  cbn.

Section HandlerRuns.

Variable c : Component.

(* The settled half of fetchBalances, case by case. *)
Lemma fetchBalances_resume_after (o : FetchOutcome) :
  after (fetchBalances_resume o c) =
    match fetched_balances o with
    | inl _ => c
    | inr b => if truthy b then with_balances b c else c
    end.
Proof.
  destruct o as [|[st [e|data]]]; run_js; try reflexivity.
  destruct (data_balances data) as [e|b]; cbn; [reflexivity|].
  destruct (truthy b); reflexivity.
Qed.

Lemma fetchBalances_resume_effects (o : FetchOutcome) :
  effects (fetchBalances_resume o c) =
    match fetched_balances o with
    | inl e => [ConsoleError "Failed to fetch balances:" e]
    | inr _ => []
    end.
Proof.
  destruct o as [|[st [e|data]]]; run_js; try reflexivity.
  destruct (data_balances data) as [e|b]; cbn; [reflexivity|].
  destruct (truthy b); reflexivity.
Qed.

Lemma fetchBalances_after (o : FetchOutcome) :
  after (fetchBalances o c) = after (fetchBalances_resume o c).
Proof. reflexivity. Qed.

Lemma fetchBalances_effects (o : FetchOutcome) :
  effects (fetchBalances o c) =
    Fetch (GetBalances "default") :: effects (fetchBalances_resume o c).
Proof. reflexivity. Qed.

(* The settled half of connectBinance. *)
Lemma connectBinance_resume_after (o : FetchOutcome) :
  after (connectBinance_resume o c) =
    {| isConnected := connect_succeeds o || isConnected c; balances := balances c;
       apiKey := apiKey c; apiSecret := apiSecret c; loading := false;
       orderData := orderData c |}.
Proof.
  destruct o as [|r]; run_js; [reflexivity|].
  destruct (ok r); reflexivity.
Qed.

Lemma connectBinance_resume_effects (o : FetchOutcome) :
  effects (connectBinance_resume o c) =
    match o with
    | Rejected => [ConsoleError "Connection failed:" NetworkFailure]
    | Resolved r => if ok r then [Fetch (GetBalances "default")] else []
    end.
Proof.
  destruct o as [|r]; run_js; [reflexivity|].
  destruct (ok r); reflexivity.
Qed.

Lemma connectBinance_after (o : FetchOutcome) :
  after (connectBinance o c) =
    {| isConnected := connect_succeeds o || isConnected c; balances := balances c;
       apiKey := apiKey c; apiSecret := apiSecret c; loading := false;
       orderData := orderData c |}.
Proof.
  destruct o as [|r]; run_js; [reflexivity|].
  destruct (ok r); reflexivity.
Qed.

Lemma connectBinance_effects (o : FetchOutcome) :
  effects (connectBinance o c) =
    Fetch (PostConnect (apiKey c) (apiSecret c) "default")
      :: effects (connectBinance_resume o c).
Proof.
  destruct o as [|r]; run_js; [reflexivity|].
  destruct (ok r); reflexivity.
Qed.

(* The settled half of placeOrder: only `loading` is written. *)
Lemma placeOrder_resume_after (o : FetchOutcome) :
  after (placeOrder_resume o c) = with_loading false c.
Proof.
  destruct o as [|r]; run_js; [reflexivity|].
  destruct (ok r); cbn; [|reflexivity].
  destruct (json r); reflexivity.
Qed.

Lemma placeOrder_resume_effects (o : FetchOutcome) :
  effects (placeOrder_resume o c) =
    match o with
    | Rejected => [ConsoleError "Order failed:" NetworkFailure]
    | Resolved r =>
        if ok r then
          match json r with
          | inl e => [ConsoleError "Order failed:" e]
          | inr result => [ConsoleLog "Order placed:" result; Fetch (GetBalances "default")]
          end
        else []
    end.
Proof.
  destruct o as [|r]; run_js; [reflexivity|].
  destruct (ok r); cbn; [|reflexivity].
  destruct (json r); reflexivity.
Qed.

Lemma placeOrder_after (o : FetchOutcome) :
  after (placeOrder o c) = with_loading false c.
Proof.
  destruct o as [|r]; run_js; [reflexivity|].
  destruct (ok r); cbn; [|reflexivity].
  destruct (json r); reflexivity.
Qed.

Lemma placeOrder_effects (o : FetchOutcome) :
  effects (placeOrder o c) =
    Fetch (PostOrder (orderData c) "default") :: effects (placeOrder_resume o c).
Proof.
  destruct o as [|r]; run_js; [reflexivity|].
  destruct (ok r); cbn; [|reflexivity].
  destruct (json r); reflexivity.
Qed.

End HandlerRuns.

(* --------------------------------------------------------------------- *)
(* connectBinance                                                        *)
(* --------------------------------------------------------------------- *)

(** C1: a connect attempt whose response is an HTTP success ends with the
    status Connected, and its effects are the connect request followed at
    once by one balances request: exactly one balances fetch is issued, by
    the turn in which the connect response arrives. *)
Theorem connect_success_one_balances_fetch (c : Component) (r : Response) :
  ok r = true →
  isConnected (after (connectBinance (Resolved r) c)) = true ∧
  effects (connectBinance (Resolved r) c) =
    [Fetch (PostConnect (apiKey c) (apiSecret c) "default");
     Fetch (GetBalances "default")] ∧
  count is_balances_fetch (effects (connectBinance (Resolved r) c)) = 1 ∧
  requests (effects (connectBinance_resume (Resolved r) c)) = [GetBalances "default"].
Proof.
  intros Hok.
  rewrite connectBinance_after, connectBinance_effects, connectBinance_resume_effects.
  cbn. rewrite Hok. cbn. repeat split; reflexivity.
Qed.

Lemma connect_success_one_balances_fetch_witness :
  isConnected (after (connectBinance (http 200 (inr JNull)) filled)) = true ∧
  effects (connectBinance (http 200 (inr JNull)) filled) =
    [Fetch (PostConnect "k" "s" "default"); Fetch (GetBalances "default")] ∧
  count is_balances_fetch (effects (connectBinance (http 200 (inr JNull)) filled)) = 1 ∧
  requests (effects (connectBinance_resume (http 200 (inr JNull)) filled)) =
    [GetBalances "default"].
Proof.
  exact (connect_success_one_balances_fetch filled
           {| status := 200; json := inr JNull |} eq_refl).
Defined.

(* An HTTP failure is not logged: the `if (response.ok)` has no `else`,
   and `catch` only sees a rejected fetch. *)
Lemma connect_http_failure_logs_nothing :
  connect_succeeds (http 401 (inr (JObj (<["error" := JStr "Invalid API key"]> ∅)))) = false ∧
  effects (connectBinance (http 401 (inr (JObj (<["error" := JStr "Invalid API key"]> ∅)))) filled) =
    [Fetch (PostConnect "k" "s" "default")] ∧
  count is_console_error
    (effects (connectBinance (http 401 (inr (JObj (<["error" := JStr "Invalid API key"]> ∅)))) filled)) = 0.
Proof. repeat split; reflexivity. Qed.

(** C3 (amended): a connect attempt that ends in an HTTP failure or a
    network error leaves the status as it was (Disconnected stays
    Disconnected; only `loading` ends false), sends the connect request once
    and no balances request; a network error is logged with console.error,
    an HTTP failure is passed over in silence. *)
Theorem connect_failure_keeps_status (c : Component) (o : FetchOutcome) :
  connect_succeeds o = false →
  isConnected (after (connectBinance o c)) = isConnected c ∧
  after (connectBinance o c) = with_loading false c ∧
  count is_connect_fetch (effects (connectBinance o c)) = 1 ∧
  count is_balances_fetch (effects (connectBinance o c)) = 0 ∧
  effects (connectBinance o c) =
    Fetch (PostConnect (apiKey c) (apiSecret c) "default")
      :: match o with
         | Rejected => [ConsoleError "Connection failed:" NetworkFailure]
         | Resolved _ => []
         end.
Proof.
  intros Hfail.
  rewrite connectBinance_after, connectBinance_effects, connectBinance_resume_effects, Hfail.
  destruct o as [|r]; cbn in *; [|rewrite Hfail]; repeat split; reflexivity.
Qed.

Lemma connect_failure_keeps_status_witness :
  isConnected (after (connectBinance Rejected filled)) = false ∧
  after (connectBinance Rejected filled) = with_loading false filled ∧
  count is_connect_fetch (effects (connectBinance Rejected filled)) = 1 ∧
  count is_balances_fetch (effects (connectBinance Rejected filled)) = 0 ∧
  effects (connectBinance Rejected filled) =
    [Fetch (PostConnect "k" "s" "default");
     ConsoleError "Connection failed:" NetworkFailure].
Proof. exact (connect_failure_keeps_status filled Rejected eq_refl). Defined.

(** C10: a connect attempt, whatever its outcome, leaves apiKey, apiSecret,
    orderData and, by itself, balances as they were; it ends with `loading`
    false, and the status is Connected exactly when the attempt succeeded or
    the session was already Connected. Only a successful attempt triggers a
    balances fetch, and when that fetch settles it writes nothing but
    balances. *)
Theorem connect_frame (c : Component) (o ob : FetchOutcome) :
  after (connectBinance o c) =
    {| isConnected := connect_succeeds o || isConnected c; balances := balances c;
       apiKey := apiKey c; apiSecret := apiSecret c; loading := false;
       orderData := orderData c |} ∧
  requests (effects (connectBinance o c)) =
    PostConnect (apiKey c) (apiSecret c) "default"
      :: (if connect_succeeds o then [GetBalances "default"] else []) ∧
  apiKey (after (fetchBalances_resume ob (after (connectBinance o c)))) = apiKey c ∧
  apiSecret (after (fetchBalances_resume ob (after (connectBinance o c)))) = apiSecret c ∧
  orderData (after (fetchBalances_resume ob (after (connectBinance o c)))) = orderData c ∧
  loading (after (fetchBalances_resume ob (after (connectBinance o c)))) = false ∧
  isConnected (after (fetchBalances_resume ob (after (connectBinance o c)))) =
    connect_succeeds o || isConnected c.
Proof.
  rewrite fetchBalances_resume_after, connectBinance_after, connectBinance_effects,
    connectBinance_resume_effects.
  split; [reflexivity|]. split.
  - destruct o as [|r]; cbn; [reflexivity|]. destruct (ok r); reflexivity.
  - destruct (fetched_balances ob) as [e|b]; [|destruct (truthy b)];
      repeat split; reflexivity.
Qed.

(* --------------------------------------------------------------------- *)
(* fetchBalances                                                         *)
(* --------------------------------------------------------------------- *)

(* A body that cannot be used all the same overwrites the rows: any truthy
   `balances` passes the `if (data.balances)` guard and is stored as it is.
   Here it is a string, which the next render cannot map over. *)
Lemma unusable_balances_overwrite :
  fetched_balances (http 200 (inr (balances_body (JStr "rate limited")))) =
    inr (JStr "rate limited") ∧
  balances (after (fetchBalances (http 200 (inr (balances_body (JStr "rate limited")))) linked)) =
    JStr "rate limited" ∧
  balances (after (fetchBalances (http 200 (inr (balances_body (JStr "rate limited")))) linked)) ≠
    balances linked ∧
  page_renders (after (fetchBalances (http 200 (inr (balances_body (JStr "rate limited")))) linked)) =
    false.
Proof. repeat split. cbn. discriminate. Qed.

(** C4 (amended): a balances refresh in which the fetch rejects, the body
    is not JSON or is null, or `data.balances` is missing or falsy leaves
    the Balance collection, and the whole component state, exactly as it
    was. (A truthy `balances` of any shape is stored instead.) *)
Theorem refresh_failure_keeps_balances (c : Component) (o : FetchOutcome) :
  refresh_fails o = true →
  balances (after (fetchBalances o c)) = balances c ∧
  after (fetchBalances o c) = c.
Proof.
  unfold refresh_fails. intros Hfail.
  rewrite fetchBalances_after, fetchBalances_resume_after.
  destruct (fetched_balances o) as [e|b]; [split; reflexivity|].
  destruct (truthy b); [discriminate|split; reflexivity].
Qed.

Lemma refresh_failure_keeps_balances_witness :
  balances (after (fetchBalances (http 502 (inl SyntaxError)) linked)) = balances_js [btc_row] ∧
  after (fetchBalances (http 502 (inl SyntaxError)) linked) = linked.
Proof.
  exact (refresh_failure_keeps_balances linked (http 502 (inl SyntaxError)) eq_refl).
Defined.

(* The failing cases one by one, with what is logged. *)
Lemma refresh_failure_cases (c : Component) :
  fetchBalances Rejected c =
    {| value := inr tt; after := c;
       effects := [Fetch (GetBalances "default");
                   ConsoleError "Failed to fetch balances:" NetworkFailure] |} ∧
  (∀ st, fetchBalances (http st (inl SyntaxError)) c =
    {| value := inr tt; after := c;
       effects := [Fetch (GetBalances "default");
                   ConsoleError "Failed to fetch balances:" SyntaxError] |}) ∧
  (∀ st, fetchBalances (http st (inr JNull)) c =
    {| value := inr tt; after := c;
       effects := [Fetch (GetBalances "default");
                   ConsoleError "Failed to fetch balances:" TypeError] |}).
Proof. repeat split. Qed.

(* `response.ok` is not consulted: the HTTP status plays no part. *)
Lemma refresh_ignores_status (c : Component) (st st' : nat) (body : JsError + jsval) :
  fetchBalances (http st body) c = fetchBalances (http st' body) c.
Proof. reflexivity. Qed.

(* Refreshing twice with one gateway answer is refreshing once, whatever
   the answer. *)
Lemma fetchBalances_idempotent (c : Component) (o : FetchOutcome) :
  after (fetchBalances o (after (fetchBalances o c))) = after (fetchBalances o c).
Proof.
  rewrite !fetchBalances_after, !fetchBalances_resume_after.
  destruct (fetched_balances o) as [e|b]; [reflexivity|].
  destruct (truthy b); reflexivity.
Qed.

(** C6: a successful refresh stores the `balances` value of the response in
    place of the whole previous collection, whatever that was, so a second
    refresh with the same gateway response ends in the same collection (and
    the same component state) as the first. *)
Theorem refresh_replaces_and_is_idempotent (c : Component) (o : FetchOutcome) (v : jsval) :
  fetched_balances o = inr v →
  truthy v = true →
  balances (after (fetchBalances o c)) = v ∧
  balances (after (fetchBalances o (after (fetchBalances o c)))) = v ∧
  after (fetchBalances o (after (fetchBalances o c))) = after (fetchBalances o c).
Proof.
  intros Hv Ht.
  rewrite fetchBalances_idempotent, fetchBalances_after, fetchBalances_resume_after, Hv, Ht.
  repeat split; reflexivity.
Qed.

Lemma refresh_replaces_and_is_idempotent_witness :
  balances (after (fetchBalances (http 200 (inr (balances_body (balances_js [btc_row]))))
                     initial)) = balances_js [btc_row] ∧
  balances (after (fetchBalances (http 200 (inr (balances_body (balances_js [btc_row]))))
             (after (fetchBalances (http 200 (inr (balances_body (balances_js [btc_row]))))
                       initial)))) = balances_js [btc_row] ∧
  after (fetchBalances (http 200 (inr (balances_body (balances_js [btc_row]))))
           (after (fetchBalances (http 200 (inr (balances_body (balances_js [btc_row]))))
                     initial))) =
  after (fetchBalances (http 200 (inr (balances_body (balances_js [btc_row])))) initial).
Proof.
  exact (refresh_replaces_and_is_idempotent initial
           (http 200 (inr (balances_body (balances_js [btc_row]))))
           (balances_js [btc_row]) eq_refl eq_refl).
Defined.

(* A body without a `balances` field leaves the rows that were shown: the
   `if (data.balances)` guard skips the setter. *)
Lemma missing_balances_field_keeps_rows :
  data_balances (JObj ∅) = inr JUndefined ∧
  balances (after (fetchBalances (http 200 (inr (JObj ∅))) linked)) = balances_js [btc_row] ∧
  balances (after (fetchBalances (http 200 (inr (JObj ∅))) linked)) ≠ JArr [].
Proof. repeat split. cbn. discriminate. Qed.

(** C7 (amended): a balances response whose JSON body is an object without a
    `balances` field is not an error (nothing is logged) and changes
    nothing: the Balance collection shown before the call is still shown
    after it. *)
Theorem missing_balances_field_is_ignored
    (c : Component) (r : Response) (props : gmap string jsval) :
  json r = inr (JObj props) →
  props !! "balances" = None →
  after (fetchBalances (Resolved r) c) = c ∧
  effects (fetchBalances (Resolved r) c) = [Fetch (GetBalances "default")] ∧
  count is_console_error (effects (fetchBalances (Resolved r) c)) = 0.
Proof.
  intros Hjson Hnone.
  rewrite fetchBalances_after, fetchBalances_effects, fetchBalances_resume_after,
    fetchBalances_resume_effects.
  cbn. rewrite Hjson. cbn. rewrite Hnone. cbn. repeat split; reflexivity.
Qed.

Lemma missing_balances_field_is_ignored_witness :
  after (fetchBalances (http 200 (inr (JObj ∅))) linked) = linked ∧
  effects (fetchBalances (http 200 (inr (JObj ∅))) linked) = [Fetch (GetBalances "default")] ∧
  count is_console_error (effects (fetchBalances (http 200 (inr (JObj ∅))) linked)) = 0.
Proof.
  exact (missing_balances_field_is_ignored linked
           {| status := 200; json := inr (JObj ∅) |} ∅ eq_refl eq_refl).
Defined.

(* --------------------------------------------------------------------- *)
(* placeOrder                                                            *)
(* --------------------------------------------------------------------- *)

(* An HTTP success whose body is not JSON: `await response.json()` throws
   inside the `try`, before `fetchBalances()` is reached. *)
Lemma order_success_without_json_skips_refresh :
  ok {| status := 200; json := inl SyntaxError |} = true ∧
  effects (placeOrder (http 200 (inl SyntaxError)) linked) =
    [Fetch (PostOrder (orderData linked) "default");
     ConsoleError "Order failed:" SyntaxError] ∧
  count is_balances_fetch (effects (placeOrder (http 200 (inl SyntaxError)) linked)) = 0.
Proof. repeat split. Qed.

(** C5 (amended): an order submission whose response is an HTTP success with
    a JSON body triggers exactly one balances refresh, for a BUY and for a
    SELL draft alike; the parsed result is logged and stored nowhere: the
    component state changes in `loading` only. *)
Theorem order_success_one_refresh (c : Component) (r : Response) (result : jsval) :
  ok r = true →
  json r = inr result →
  effects (placeOrder (Resolved r) c) =
    [Fetch (PostOrder (orderData c) "default");
     ConsoleLog "Order placed:" result;
     Fetch (GetBalances "default")] ∧
  count is_balances_fetch (effects (placeOrder (Resolved r) c)) = 1 ∧
  after (placeOrder (Resolved r) c) = with_loading false c.
Proof.
  intros Hok Hjson.
  rewrite placeOrder_after, placeOrder_effects, placeOrder_resume_effects, Hok, Hjson.
  repeat split; reflexivity.
Qed.

Lemma order_success_one_refresh_witness :
  effects (placeOrder (http 200 (inr (JObj (<["orderId" := JNum 28]> ∅)))) linked) =
    [Fetch (PostOrder (orderData linked) "default");
     ConsoleLog "Order placed:" (JObj (<["orderId" := JNum 28]> ∅));
     Fetch (GetBalances "default")] ∧
  count is_balances_fetch
    (effects (placeOrder (http 200 (inr (JObj (<["orderId" := JNum 28]> ∅)))) linked)) = 1 ∧
  after (placeOrder (http 200 (inr (JObj (<["orderId" := JNum 28]> ∅)))) linked) =
    with_loading false linked.
Proof.
  exact (order_success_one_refresh linked
           {| status := 200; json := inr (JObj (<["orderId" := JNum 28]> ∅)) |}
           (JObj (<["orderId" := JNum 28]> ∅)) eq_refl eq_refl).
Defined.

(* --------------------------------------------------------------------- *)
(* The page: what can be clicked, and what each turn sends               *)
(* --------------------------------------------------------------------- *)

Lemma count_app (p : Effect → bool) (xs ys : list Effect) :
  count p (xs ++ ys) = count p xs + count p ys.
Proof. unfold count. rewrite List.filter_app, length_app. reflexivity. Qed.

(* A settled request makes its handler send at most a balances request. *)
Lemma resume_sends_balances_only (req : Request) (o : FetchOutcome) (c : Component) :
  count is_connect_fetch (effects (resume req o c)) = 0 ∧
  count is_order_fetch (effects (resume req o c)) = 0.
Proof.
  destruct req; cbn [resume].
  - rewrite connectBinance_resume_effects.
    destruct o as [|r]; [|destruct (ok r)]; split; reflexivity.
  - rewrite fetchBalances_resume_effects.
    destruct (fetched_balances o); split; reflexivity.
  - rewrite placeOrder_resume_effects.
    destruct o as [|r]; [|destruct (ok r); [destruct (json r)|]]; split; reflexivity.
Qed.

(* Only the connect button sends a connect request, only the order button
   an order request. *)
Lemma on_action_connect_fetch (a : UserAction) (c : Component) :
  count is_connect_fetch (effects (on_action a c)) =
    match a with ClickConnect => 1 | _ => 0 end.
Proof. destruct a; reflexivity. Qed.

Lemma on_action_order_fetch (a : UserAction) (c : Component) :
  count is_order_fetch (effects (on_action a c)) =
    match a with ClickOrder => 1 | _ => 0 end.
Proof. destruct a; reflexivity. Qed.

(* No handler piece ever writes `false` into isConnected. *)
Lemma on_action_keeps_connected (a : UserAction) (c : Component) :
  isConnected (after (on_action a c)) = isConnected c.
Proof. destruct a; reflexivity. Qed.

Lemma resume_keeps_connected (req : Request) (o : FetchOutcome) (c : Component) :
  isConnected c = true → isConnected (after (resume req o c)) = true.
Proof.
  intros Hc. destruct req; cbn [resume].
  - rewrite connectBinance_resume_after. cbn. rewrite Hc. apply orb_true_r.
  - rewrite fetchBalances_resume_after.
    destruct (fetched_balances o) as [e|b]; [|destruct (truthy b)]; exact Hc.
  - rewrite placeOrder_resume_after. exact Hc.
Qed.

(* What an enabled action tells about the state it is taken in. *)
Lemma enabled_inv (c : Component) (a : UserAction) :
  enabled c a = true →
  page_renders c = true ∧
  isConnected c =
    match control_of a with
    | ApiKeyInput | ApiSecretInput | ConnectButton => false
    | RefreshButton | SymbolSelect | SideSelect | QuantityInput | OrderButton => true
    end ∧
  disabled c (control_of a) = false ∧
  offered a = true.
Proof.
  unfold enabled, rendered. intros H.
  apply andb_prop in H as [H Hoff]. apply andb_prop in H as [H Hdis].
  apply andb_prop in H as [Hpage Hbranch]. apply negb_true_iff in Hdis.
  repeat split; try assumption.
  destruct (control_of a), (isConnected c); cbn in Hbranch; congruence.
Qed.

Lemma step_keeps_connected (w w' : World) (ev : Event) (effs : list Effect) :
  isConnected (component w) = true →
  step w ev = Some (w', effs) →
  isConnected (component w') = true.
Proof.
  intros Hc Hstep. destruct ev as [a|i o]; cbn in Hstep.
  - destruct (mounted w); [|discriminate]. cbn [andb] in Hstep.
    destruct (enabled (component w) a); [|discriminate].
    injection Hstep as <- _. cbn. rewrite on_action_keeps_connected. exact Hc.
  - destruct (inflight w !! i) as [req|]; [|discriminate].
    injection Hstep as <- _. cbn. apply resume_keeps_connected. exact Hc.
Qed.

Lemma exec_keeps_connected (evs : list Event) (w w' : World) (effs : list Effect) :
  isConnected (component w) = true →
  exec w evs = Some (w', effs) →
  isConnected (component w') = true.
Proof.
  revert w effs. induction evs as [|ev evs IH]; intros w effs Hc Hexec; cbn in Hexec.
  - injection Hexec as <- _. exact Hc.
  - destruct (step w ev) as [[w1 effs1]|] eqn:Hstep; [|discriminate].
    destruct (exec w1 evs) as [[w2 effs2]|] eqn:Hrest; [|discriminate].
    injection Hexec as <- _.
    eapply IH; [|exact Hrest]. eapply step_keeps_connected; eassumption.
Qed.

(* While Disconnected, a turn sends no order request. *)
Lemma step_disconnected_no_order (w w' : World) (ev : Event) (effs : list Effect) :
  isConnected (component w) = false →
  step w ev = Some (w', effs) →
  count is_order_fetch effs = 0.
Proof.
  intros Hc Hstep. destruct ev as [a|i o]; cbn in Hstep.
  - destruct (mounted w); [|discriminate]. cbn [andb] in Hstep.
    destruct (enabled (component w) a) eqn:Hen; [|discriminate].
    injection Hstep as _ <-. rewrite on_action_order_fetch.
    destruct a; try reflexivity.
    apply enabled_inv in Hen as (_ & Hen & _). cbn in Hen. congruence.
  - destruct (inflight w !! i) as [req|]; [|discriminate].
    injection Hstep as _ <-. cbn. apply resume_sends_balances_only.
Qed.

(** C2: when apiKey or apiSecret is the empty string the connect button is
    disabled, a click on it is not a possible event, and no turn of the
    page taken from that state sends a connect request. *)
Theorem empty_credentials_block_connect (w : World) :
  apiKey (component w) = "" ∨ apiSecret (component w) = "" →
  disabled (component w) ConnectButton = true ∧
  step w (User ClickConnect) = None ∧
  ∀ ev w' effs, step w ev = Some (w', effs) → count is_connect_fetch effs = 0.
Proof.
  intros Hempty.
  assert (Hdis : disabled (component w) ConnectButton = true).
  { cbn. destruct Hempty as [-> | ->]; cbn.
    - rewrite orb_true_r. reflexivity.
    - apply orb_true_r. }
  assert (Hoff : enabled (component w) ClickConnect = false).
  { unfold enabled. cbn [control_of]. rewrite Hdis. cbn. rewrite andb_false_r. reflexivity. }
  split; [exact Hdis|]. split.
  - cbn. rewrite Hoff, andb_false_r. reflexivity.
  - intros ev w' effs Hstep. destruct ev as [a|i o]; cbn in Hstep.
    + destruct (mounted w); [|discriminate]. cbn [andb] in Hstep.
      destruct (enabled (component w) a) eqn:Hen; [|discriminate].
      injection Hstep as _ <-. rewrite on_action_connect_fetch.
      destruct a; try reflexivity. rewrite Hoff in Hen. discriminate.
    + destruct (inflight w !! i) as [req|]; [|discriminate].
      injection Hstep as _ <-. cbn. apply resume_sends_balances_only.
Qed.

Lemma empty_credentials_block_connect_witness :
  disabled (component start) ConnectButton = true ∧
  step start (User ClickConnect) = None ∧
  ∀ ev w' effs, step start ev = Some (w', effs) → count is_connect_fetch effs = 0.
Proof. exact (empty_credentials_block_connect start (or_introl eq_refl)). Defined.

(** C8: along every run of the page that ends with the session
    Disconnected no order request has been sent; in such a state the order
    button is not on the page, a click on it is not a possible event, and
    no turn taken from there sends an order request. An order submission
    therefore only happens from the Connected state. *)
Theorem disconnected_blocks_orders (w w' : World) (evs : list Event) (effs : list Effect) :
  exec w evs = Some (w', effs) →
  isConnected (component w') = false →
  count is_order_fetch effs = 0 ∧
  rendered (component w') OrderButton = false ∧
  step w' (User ClickOrder) = None ∧
  ∀ ev w'' effs', step w' ev = Some (w'', effs') → count is_order_fetch effs' = 0.
Proof.
  intros Hexec Hoff. split; [|split; [|split]].
  - revert w effs Hexec. induction evs as [|ev evs IH]; intros w effs Hexec; cbn in Hexec.
    + injection Hexec as _ <-. reflexivity.
    + destruct (step w ev) as [[w1 effs1]|] eqn:Hstep; [|discriminate].
      destruct (exec w1 evs) as [[w2 effs2]|] eqn:Hrest; [|discriminate].
      injection Hexec as -> <-.
      rewrite count_app, (IH _ _ Hrest), Nat.add_0_r.
      destruct (isConnected (component w)) eqn:Hw.
      * pose proof (step_keeps_connected _ _ _ _ Hw Hstep) as H1.
        pose proof (exec_keeps_connected _ _ _ _ H1 Hrest) as H2.
        rewrite Hoff in H2. discriminate.
      * eapply step_disconnected_no_order; eassumption.
  - unfold rendered. rewrite Hoff. apply andb_false_r.
  - cbn. destruct (enabled (component w') ClickOrder) eqn:Hen.
    + apply enabled_inv in Hen as (_ & Hen & _). cbn in Hen. congruence.
    + rewrite andb_false_r. reflexivity.
  - intros ev w'' effs'. apply step_disconnected_no_order. exact Hoff.
Qed.

Lemma disconnected_blocks_orders_witness :
  count is_order_fetch
    [Fetch (PostConnect "k" "s" "default");
     ConsoleError "Connection failed:" NetworkFailure] = 0 ∧
  rendered filled OrderButton = false ∧
  step {| component := filled; inflight := []; mounted := true |} (User ClickOrder) = None ∧
  ∀ ev w'' effs',
    step {| component := filled; inflight := []; mounted := true |} ev = Some (w'', effs') →
    count is_order_fetch effs' = 0.
Proof.
  exact (disconnected_blocks_orders start {| component := filled; inflight := []; mounted := true |}
           [User (TypeApiKey "k"); User (TypeApiSecret "s"); User ClickConnect;
            Settle 0 Rejected]
           [Fetch (PostConnect "k" "s" "default");
            ConsoleError "Connection failed:" NetworkFailure]
           eq_refl eq_refl).
Defined.

(** C9: Connected is absorbing. Each operation (a connect attempt, a
    balances refresh, an order submission, with any gateway outcome, and
    every user action, field updates included) started in a Connected state
    ends in a Connected state, and so does every run of the page, however
    user actions and settling requests interleave. *)
Theorem connected_is_absorbing (w w' : World) (evs : list Event) (effs : list Effect) :
  isConnected (component w) = true →
  exec w evs = Some (w', effs) →
  isConnected (component w') = true ∧
  (∀ o, isConnected (after (connectBinance o (component w'))) = true) ∧
  (∀ o, isConnected (after (fetchBalances o (component w'))) = true) ∧
  (∀ o, isConnected (after (placeOrder o (component w'))) = true) ∧
  (∀ a, isConnected (after (on_action a (component w'))) = true).
Proof.
  intros Hc Hexec.
  pose proof (exec_keeps_connected _ _ _ _ Hc Hexec) as Hc'.
  split; [exact Hc'|]. repeat split; intros x.
  - rewrite connectBinance_after. cbn. rewrite Hc'. apply orb_true_r.
  - rewrite fetchBalances_after. apply (resume_keeps_connected (GetBalances "default")).
    exact Hc'.
  - rewrite placeOrder_after. exact Hc'.
  - rewrite on_action_keeps_connected. exact Hc'.
Qed.

Lemma connected_is_absorbing_witness :
  isConnected (with_loading false linked) = true ∧
  (∀ o, isConnected (after (connectBinance o (with_loading false linked))) = true) ∧
  (∀ o, isConnected (after (fetchBalances o (with_loading false linked))) = true) ∧
  (∀ o, isConnected (after (placeOrder o (with_loading false linked))) = true) ∧
  (∀ a, isConnected (after (on_action a (with_loading false linked))) = true).
Proof.
  exact (connected_is_absorbing
           {| component := linked; inflight := []; mounted := true |}
           {| component := with_loading false linked; inflight := []; mounted := true |}
           [User ClickOrder; Settle 0 (http 500 (inl SyntaxError));
            User ClickRefresh; Settle 0 Rejected]
           [Fetch (PostOrder (orderData linked) "default");
            Fetch (GetBalances "default");
            ConsoleError "Failed to fetch balances:" NetworkFailure]
           eq_refl eq_refl).
Defined.

(* --------------------------------------------------------------------- *)
(* The scenario of the specification, run on the page                    *)
(* --------------------------------------------------------------------- *)

(* Credentials k/s, connect answered 200, balances answered with one BTC
   row: the session ends Connected, showing that row, nothing in flight,
   having sent one connect and one balances request. *)
Example scenario_connect_then_balances :
  exec start
    [User (TypeApiKey "k"); User (TypeApiSecret "s"); User ClickConnect;
     Settle 0 (http 200 (inr JNull));
     Settle 0 (http 200 (inr (balances_body (balances_js [btc_row]))))]
  = Some ({| component := linked; inflight := []; mounted := true |},
          [Fetch (PostConnect "k" "s" "default"); Fetch (GetBalances "default")]).
Proof. reflexivity. Qed.

(* The same order draft submitted from the fresh page: not a possible run. *)
Example scenario_order_while_disconnected :
  exec start [User ClickOrder] = None.
Proof. reflexivity. Qed.

(* ===================================================================== *)
(* Further properties of the trading interface                           *)
(* ===================================================================== *)

Lemma filter_delete_length (p : Request → bool) (l : list Request) (i : nat) (x : Request) :
  l !! i = Some x →
  length (List.filter p (delete i l)) + (if p x then 1 else 0) = length (List.filter p l).
Proof.
  revert i. induction l as [|y l IH]; intros i Hi; [destruct i; discriminate|].
  destruct i as [|i]; cbn in Hi.
  - injection Hi as ->. cbn. destruct (p x); cbn; lia.
  - cbn. specialize (IH i Hi). destruct (p y); cbn; [f_equal|]; exact IH.
Qed.

(* A settled request never makes its handler send a connect or order
   request, and it releases `loading` when the handler had taken it. *)
Lemma resume_submits (req : Request) (o : FetchOutcome) (c : Component) :
  List.filter holds_loading (requests (effects (resume req o c))) = [].
Proof.
  destruct req; cbn [resume].
  - rewrite connectBinance_resume_effects.
    destruct o as [|r]; [|destruct (ok r)]; reflexivity.
  - rewrite fetchBalances_resume_effects. destruct (fetched_balances o); reflexivity.
  - rewrite placeOrder_resume_effects.
    destruct o as [|r]; [|destruct (ok r); [destruct (json r)|]]; reflexivity.
Qed.

Lemma resume_loading (req : Request) (o : FetchOutcome) (c : Component) :
  loading (after (resume req o c)) = if holds_loading req then false else loading c.
Proof.
  destruct req; cbn [resume holds_loading].
  - rewrite connectBinance_resume_after. reflexivity.
  - rewrite fetchBalances_resume_after.
    destruct (fetched_balances o) as [e|b]; [|destruct (truthy b)]; reflexivity.
  - rewrite placeOrder_resume_after. reflexivity.
Qed.

Lemma enabled_connect_inv (c : Component) :
  enabled c ClickConnect = true →
  isConnected c = false ∧ loading c = false ∧
  string_truthy (apiKey c) = true ∧ string_truthy (apiSecret c) = true.
Proof.
  intros H. apply enabled_inv in H as (_ & Hc & Hdis & _). cbn in Hc, Hdis.
  destruct (loading c), (string_truthy (apiKey c)), (string_truthy (apiSecret c));
    cbn in Hdis; try discriminate; repeat split; assumption.
Qed.

Lemma enabled_order_inv (c : Component) :
  enabled c ClickOrder = true → isConnected c = true ∧ loading c = false.
Proof.
  intros H. apply enabled_inv in H as (_ & Hc & Hdis & _). cbn in Hc, Hdis.
  split; assumption.
Qed.

Lemma step_single_flight (w w' : World) (ev : Event) (effs : list Effect) :
  pending_submits w = (if loading (component w) then 1 else 0) →
  step w ev = Some (w', effs) →
  pending_submits w' = (if loading (component w') then 1 else 0).
Proof.
  unfold pending_submits. intros Hinv Hstep. destruct ev as [a|i o]; cbn in Hstep.
  - destruct (mounted w); [|discriminate]. cbn [andb] in Hstep.
    destruct (enabled (component w) a) eqn:Hen; [|discriminate].
    injection Hstep as <- _. cbn. rewrite List.filter_app, length_app.
    destruct a; cbn; rewrite ?Nat.add_0_r; try exact Hinv.
    + apply enabled_connect_inv in Hen as (_ & Hl & _). rewrite Hl in Hinv. lia.
    + apply enabled_order_inv in Hen as (_ & Hl). rewrite Hl in Hinv. lia.
  - destruct (inflight w !! i) as [req|] eqn:Hi; [|discriminate].
    injection Hstep as <- _. cbn.
    rewrite List.filter_app, length_app, resume_submits, resume_loading. cbn.
    pose proof (filter_delete_length holds_loading _ _ _ Hi) as Hdel.
    destruct (holds_loading req), (loading (component w)); lia.
Qed.

(** X1: connect and order submissions are single-flight. In every state
    the page can reach, at most one connect or order request is in flight,
    and `loading` is true exactly while one is; so the connect and order
    buttons, disabled by `loading`, cannot be clicked a second time before
    the pending response has arrived. *)
Theorem submissions_are_single_flight (evs : list Event) (w : World) (effs : list Effect) :
  exec start evs = Some (w, effs) →
  pending_submits w = (if loading (component w) then 1 else 0) ∧
  (pending_submits w = 1 →
   step w (User ClickConnect) = None ∧ step w (User ClickOrder) = None).
Proof.
  intros Hexec.
  assert (Hinv : pending_submits w = (if loading (component w) then 1 else 0)).
  { assert (Hstart : pending_submits start = (if loading (component start) then 1 else 0))
      by reflexivity.
    revert Hstart Hexec. generalize start as w0. revert effs.
    induction evs as [|ev evs IH]; intros effs w0 H0 Hexec; cbn in Hexec.
    - injection Hexec as <- _. exact H0.
    - destruct (step w0 ev) as [[w1 effs1]|] eqn:Hstep; [|discriminate].
      destruct (exec w1 evs) as [[w2 effs2]|] eqn:Hrest; [|discriminate].
      injection Hexec as <- _.
      eapply IH; [|exact Hrest]. eapply step_single_flight; eassumption. }
  split; [exact Hinv|]. intros Hone. rewrite Hone in Hinv.
  destruct (loading (component w)) eqn:Hl; [|discriminate].
  split; cbn.
  - destruct (enabled (component w) ClickConnect) eqn:Hen;
      [|rewrite andb_false_r; reflexivity].
    apply enabled_connect_inv in Hen as (_ & Hl' & _). congruence.
  - destruct (enabled (component w) ClickOrder) eqn:Hen;
      [|rewrite andb_false_r; reflexivity].
    apply enabled_order_inv in Hen as (_ & Hl'). congruence.
Qed.

Lemma submissions_are_single_flight_witness :
  pending_submits {| component := with_loading true filled;
                     inflight := [PostConnect "k" "s" "default"]; mounted := true |} = 1 ∧
  (pending_submits {| component := with_loading true filled;
                      inflight := [PostConnect "k" "s" "default"]; mounted := true |} = 1 →
   step {| component := with_loading true filled;
           inflight := [PostConnect "k" "s" "default"]; mounted := true |} (User ClickConnect) = None ∧
   step {| component := with_loading true filled;
           inflight := [PostConnect "k" "s" "default"]; mounted := true |} (User ClickOrder) = None).
Proof.
  exact (submissions_are_single_flight
           [User (TypeApiKey "k"); User (TypeApiSecret "s"); User ClickConnect]
           {| component := with_loading true filled;
              inflight := [PostConnect "k" "s" "default"]; mounted := true |}
           [Fetch (PostConnect "k" "s" "default")] eq_refl).
Defined.

(** X2: whenever a click on the connect button goes through, the session
    is Disconnected, nothing is loading, both credentials are non-empty,
    and the turn sends exactly one request: the connect request carrying
    the apiKey and apiSecret on the page and the user id "default"; the
    page is then loading with that request in flight. *)
Theorem connect_click_sends_credentials (w w' : World) (effs : list Effect) :
  step w (User ClickConnect) = Some (w', effs) →
  isConnected (component w) = false ∧
  loading (component w) = false ∧
  apiKey (component w) ≠ "" ∧ apiSecret (component w) ≠ "" ∧
  effs = [Fetch (PostConnect (apiKey (component w)) (apiSecret (component w)) "default")] ∧
  component w' = with_loading true (component w) ∧
  inflight w' =
    inflight w ++ [PostConnect (apiKey (component w)) (apiSecret (component w)) "default"].
Proof.
  cbn. intros Hstep.
  destruct (mounted w); [|discriminate]. cbn [andb] in Hstep.
  destruct (enabled (component w) ClickConnect) eqn:Hen; [|discriminate].
  apply enabled_connect_inv in Hen as (Hc & Hl & Hk & Hs).
  injection Hstep as <- <-.
  repeat split; try assumption.
  - intros E. rewrite E in Hk. discriminate.
  - intros E. rewrite E in Hs. discriminate.
Qed.

Lemma connect_click_sends_credentials_witness :
  isConnected filled = false ∧
  loading filled = false ∧
  apiKey filled ≠ "" ∧ apiSecret filled ≠ "" ∧
  [Fetch (PostConnect "k" "s" "default")] =
    [Fetch (PostConnect (apiKey filled) (apiSecret filled) "default")] ∧
  with_loading true filled = with_loading true filled ∧
  [PostConnect "k" "s" "default"] =
    [] ++ [PostConnect (apiKey filled) (apiSecret filled) "default"].
Proof.
  exact (connect_click_sends_credentials
           {| component := filled; inflight := []; mounted := true |}
           {| component := with_loading true filled;
              inflight := [PostConnect "k" "s" "default"]; mounted := true |}
           [Fetch (PostConnect "k" "s" "default")] eq_refl).
Defined.

(** X3: an order submission that fails (the fetch rejects, the response is
    not ok, or its body is not JSON) triggers no balances refresh, sends
    the order once, releases `loading` and changes nothing else: the draft
    is kept, so submitting again sends the same order. A rejected fetch and
    an unparseable body are logged, a not-ok response is not. *)
Theorem order_failure_keeps_draft (c : Component) (o : FetchOutcome) :
  order_succeeds o = false →
  after (placeOrder o c) = with_loading false c ∧
  orderData (after (placeOrder o c)) = orderData c ∧
  count is_balances_fetch (effects (placeOrder o c)) = 0 ∧
  count is_order_fetch (effects (placeOrder o c)) = 1 ∧
  effects (placeOrder_call (after (placeOrder o c))) =
    [Fetch (PostOrder (orderData c) "default")] ∧
  effects (placeOrder o c) =
    Fetch (PostOrder (orderData c) "default")
      :: match o with
         | Rejected => [ConsoleError "Order failed:" NetworkFailure]
         | Resolved r =>
             match json r with
             | inl e => if ok r then [ConsoleError "Order failed:" e] else []
             | inr _ => []
             end
         end.
Proof.
  intros Hfail.
  rewrite placeOrder_after, placeOrder_effects, placeOrder_resume_effects.
  destruct o as [|r]; cbn in Hfail |- *.
  - repeat split; reflexivity.
  - destruct (ok r), (json r); cbn in Hfail |- *; try discriminate;
      repeat split; reflexivity.
Qed.

Lemma order_failure_keeps_draft_witness :
  after (placeOrder (http 400 (inr JNull)) linked) = with_loading false linked ∧
  orderData (after (placeOrder (http 400 (inr JNull)) linked)) = orderData linked ∧
  count is_balances_fetch (effects (placeOrder (http 400 (inr JNull)) linked)) = 0 ∧
  count is_order_fetch (effects (placeOrder (http 400 (inr JNull)) linked)) = 1 ∧
  effects (placeOrder_call (after (placeOrder (http 400 (inr JNull)) linked))) =
    [Fetch (PostOrder (orderData linked) "default")] ∧
  effects (placeOrder (http 400 (inr JNull)) linked) =
    [Fetch (PostOrder (orderData linked) "default")].
Proof. exact (order_failure_keeps_draft linked (http 400 (inr JNull)) eq_refl). Defined.

(** X4: two balances responses settling one after the other compose as
    "the later usable one wins": if the second response fails the state is
    what the first left, otherwise it is what the second alone would give,
    whatever the first was. *)
Theorem later_refresh_wins (c : Component) (o1 o2 : FetchOutcome) :
  after (fetchBalances_resume o2 (after (fetchBalances_resume o1 c))) =
    if refresh_fails o2 then after (fetchBalances_resume o1 c)
    else after (fetchBalances_resume o2 c).
Proof.
  unfold refresh_fails. rewrite !fetchBalances_resume_after.
  destruct (fetched_balances o2) as [e2|b2]; [reflexivity|].
  destruct (truthy b2); [|reflexivity].
  destruct (fetched_balances o1) as [e1|b1]; [reflexivity|].
  destruct (truthy b1); reflexivity.
Qed.

(* A list of Balance records always renders: every row is an object whose
   `asset`, `free` and `locked` are strings. *)
Lemma rows_render (bs : list Balance) :
  forallb row_renders (balance_js <$> bs) = true.
Proof.
  induction bs as [|b bs IH]; [reflexivity|].
  cbn [fmap list_fmap forallb]. rewrite IH, andb_true_r. reflexivity.
Qed.

Lemma typed_page_renders (c : Component) (bs : list Balance) :
  balances c = balances_js bs → page_renders c = true.
Proof.
  unfold page_renders. intros ->. destruct (isConnected c); [|reflexivity].
  apply rows_render.
Qed.

Lemma page_renders_with_balances (c : Component) (bs : list Balance) :
  page_renders (with_balances (balances_js bs) c) = true.
Proof. apply (typed_page_renders _ bs). reflexivity. Qed.

(* The linked account with an order pending is a state the page reaches. *)
Lemma busy_linked_reachable :
  exec start
    [User (TypeApiKey "k"); User (TypeApiSecret "s"); User ClickConnect;
     Settle 0 (http 200 (inr JNull));
     Settle 0 (http 200 (inr (balances_body (balances_js [btc_row]))));
     User ClickOrder] =
  Some ({| component := with_loading true linked;
           inflight := [PostOrder (orderData linked) "default"]; mounted := true |},
        [Fetch (PostConnect "k" "s" "default"); Fetch (GetBalances "default");
         Fetch (PostOrder (orderData linked) "default")]).
Proof. reflexivity. Qed.

(* So is the linked account with two refreshes pending. *)
Lemma refreshing_linked_reachable :
  exec start
    [User (TypeApiKey "k"); User (TypeApiSecret "s"); User ClickConnect;
     Settle 0 (http 200 (inr JNull));
     Settle 0 (http 200 (inr (balances_body (balances_js [btc_row]))));
     User ClickRefresh; User ClickRefresh] =
  Some ({| component := linked;
           inflight := [GetBalances "default"; GetBalances "default"]; mounted := true |},
        [Fetch (PostConnect "k" "s" "default"); Fetch (GetBalances "default");
         Fetch (GetBalances "default"); Fetch (GetBalances "default")]).
Proof. reflexivity. Qed.

(** X5: refreshes are not ordered. On a mounted page with two balances
    requests in flight, when both responses carry a list of Balance
    records, the page stays mounted and the collection shown at the end is
    the one of the response that settled last: the second request's when
    they settle in order, the first request's (the older data) when they
    settle in reverse order. *)
Theorem out_of_order_refresh (w : World) (u1 u2 : string) (o1 o2 : FetchOutcome)
    (bs1 bs2 : list Balance) :
  mounted w = true →
  inflight w = [GetBalances u1; GetBalances u2] →
  fetched_balances o1 = inr (balances_js bs1) →
  fetched_balances o2 = inr (balances_js bs2) →
  exec w [Settle 0 o1; Settle 0 o2] =
    Some ({| component := with_balances (balances_js bs2) (component w);
             inflight := []; mounted := true |}, []) ∧
  exec w [Settle 1 o2; Settle 0 o1] =
    Some ({| component := with_balances (balances_js bs1) (component w);
             inflight := []; mounted := true |}, []).
Proof.
  intros Hm Hin H1 H2. destruct w as [c fl m]. cbn in Hm, Hin. subst fl m.
  unfold exec, step, dispatch. cbn -[fetchBalances_resume page_renders].
  rewrite !fetchBalances_resume_effects, !fetchBalances_resume_after.
  rewrite H1, H2. cbn -[page_renders].
  repeat match goal with
  | |- context [page_renders ?x] =>
      replace (page_renders x) with true
        by (symmetry;
            first [ apply (typed_page_renders _ bs1); reflexivity
                  | apply (typed_page_renders _ bs2); reflexivity ])
  end.
  split; reflexivity.
Qed.

Lemma out_of_order_refresh_witness :
  exec {| component := linked; inflight := [GetBalances "default"; GetBalances "default"];
          mounted := true |}
    [Settle 0 (http 200 (inr (balances_body (balances_js []))));
     Settle 0 (http 200 (inr (balances_body (balances_js [btc_row]))))] =
    Some ({| component := with_balances (balances_js [btc_row]) linked;
             inflight := []; mounted := true |}, []) ∧
  exec {| component := linked; inflight := [GetBalances "default"; GetBalances "default"];
          mounted := true |}
    [Settle 1 (http 200 (inr (balances_body (balances_js [btc_row]))));
     Settle 0 (http 200 (inr (balances_body (balances_js []))))] =
    Some ({| component := with_balances (balances_js []) linked;
             inflight := []; mounted := true |}, []).
Proof.
  exact (out_of_order_refresh
           {| component := linked;
              inflight := [GetBalances "default"; GetBalances "default"];
              mounted := true |}
           "default" "default"
           (http 200 (inr (balances_body (balances_js []))))
           (http 200 (inr (balances_body (balances_js [btc_row]))))
           [] [btc_row]
           eq_refl eq_refl eq_refl eq_refl).
Defined.

(** X6: the refresh button is not guarded. On a mounted, Connected page
    that shows a list of Balance records it can be clicked any number of
    times in a row, whatever is loading or in flight; each click sends one
    more balances request and changes nothing in the component state. *)
Theorem refresh_is_not_guarded (n : nat) (w : World) (bs : list Balance) :
  mounted w = true →
  isConnected (component w) = true →
  balances (component w) = balances_js bs →
  exec w (replicate n (User ClickRefresh)) =
    Some ({| component := component w;
             inflight := inflight w ++ replicate n (GetBalances "default");
             mounted := true |},
          replicate n (Fetch (GetBalances "default"))).
Proof.
  revert w. induction n as [|n IH]; intros [c fl m] Hm Hc Hb; cbn in Hm, Hc, Hb; subst m.
  - cbn. rewrite app_nil_r. reflexivity.
  - pose proof (typed_page_renders c bs Hb) as Hr.
    cbn [replicate exec step mounted component andb].
    assert (Hen : enabled c ClickRefresh = true).
    { unfold enabled, rendered. cbn. rewrite Hr, Hc. reflexivity. }
    rewrite Hen. unfold dispatch. cbn -[page_renders]. rewrite Hr.
    rewrite (IH {| component := c; inflight := fl ++ [GetBalances "default"];
                   mounted := true |} eq_refl Hc Hb).
    cbn. rewrite <- app_assoc. reflexivity.
Qed.

Lemma refresh_is_not_guarded_witness :
  exec {| component := with_loading true linked;
          inflight := [PostOrder (orderData linked) "default"]; mounted := true |}
       (replicate 3 (User ClickRefresh)) =
    Some ({| component := with_loading true linked;
             inflight := [PostOrder (orderData linked) "default"]
                           ++ replicate 3 (GetBalances "default");
             mounted := true |},
          replicate 3 (Fetch (GetBalances "default"))).
Proof.
  exact (refresh_is_not_guarded 3
           {| component := with_loading true linked;
              inflight := [PostOrder (orderData linked) "default"]; mounted := true |}
           [btc_row] eq_refl eq_refl eq_refl).
Defined.

Lemma enabled_disconnected (c : Component) (a : UserAction) :
  isConnected c = false →
  enabled c a = true →
  (∃ text, a = TypeApiKey text) ∨ (∃ text, a = TypeApiSecret text) ∨ a = ClickConnect.
Proof.
  intros Hc H. apply enabled_inv in H as (_ & H & _). rewrite Hc in H.
  destruct a; cbn in H; try discriminate; eauto.
Qed.

Lemma step_untouched (w w' : World) (ev : Event) (effs : list Effect) :
  isConnected (component w) = false →
  untouched w →
  step w ev = Some (w', effs) →
  isConnected (component w') = false →
  untouched w' ∧ count is_balances_fetch effs = 0.
Proof.
  intros Hc (Hb & Hd & Hfl) Hstep Hc'. destruct ev as [a|i o]; cbn in Hstep.
  - destruct (mounted w); [|discriminate]. cbn [andb] in Hstep.
    destruct (enabled (component w) a) eqn:Hen; [|discriminate].
    injection Hstep as <- <-.
    destruct (enabled_disconnected _ _ Hc Hen) as [[t ->]|[[t ->]| ->]]; cbn.
    + rewrite app_nil_r. repeat split; assumption.
    + rewrite app_nil_r. repeat split; assumption.
    + repeat split; try assumption.
      apply Forall_app. split; [assumption|]. repeat constructor.
  - destruct (inflight w !! i) as [req|] eqn:Hi; [|discriminate].
    injection Hstep as <- <-. cbn in Hc' |- *.
    assert (Hreq : is_connect_request req = true).
    { rewrite Forall_lookup in Hfl. exact (Hfl i req Hi). }
    destruct req; try discriminate. cbn [resume] in Hc' |- *.
    rewrite connectBinance_resume_after in Hc'. cbn in Hc'. rewrite Hc in Hc'.
    rewrite orb_false_r in Hc'.
    rewrite connectBinance_resume_after, connectBinance_resume_effects.
    destruct o as [|r]; cbn in Hc' |- *; [|rewrite Hc'; cbn];
      rewrite app_nil_r; repeat split; try assumption; apply Forall_delete; assumption.
Qed.

(** X7: nothing is fetched or edited before the session is Connected. On
    every run of the page from its first render that ends Disconnected, no
    balances request has been sent, the Balance collection is still the
    empty array, the order draft is still the initial one, and every
    request in flight is a connect request. *)
Theorem disconnected_page_is_untouched (evs : list Event) (w : World) (effs : list Effect) :
  exec start evs = Some (w, effs) →
  isConnected (component w) = false →
  balances (component w) = JArr [] ∧
  orderData (component w) = orderData initial ∧
  Forall (λ req, is_connect_request req = true) (inflight w) ∧
  count is_balances_fetch effs = 0.
Proof.
  intros Hexec Hoff.
  assert (Hstart : untouched start) by (repeat split; constructor).
  enough (untouched w ∧ count is_balances_fetch effs = 0) as [(? & ? & ?) ?]
    by (repeat split; assumption).
  revert Hstart Hexec. generalize start as w0. revert effs.
  induction evs as [|ev evs IH]; intros effs w0 H0 Hexec; cbn in Hexec.
  - injection Hexec as <- <-. split; [exact H0|reflexivity].
  - destruct (step w0 ev) as [[w1 effs1]|] eqn:Hstep; [|discriminate].
    destruct (exec w1 evs) as [[w2 effs2]|] eqn:Hrest; [|discriminate].
    injection Hexec as <- <-.
    assert (H1 : isConnected (component w1) = false).
    { destruct (isConnected (component w1)) eqn:E; [|reflexivity].
      rewrite (exec_keeps_connected _ _ _ _ E Hrest) in Hoff. discriminate. }
    assert (Hw0 : isConnected (component w0) = false).
    { destruct (isConnected (component w0)) eqn:E; [|reflexivity].
      rewrite (step_keeps_connected _ _ _ _ E Hstep) in H1. discriminate. }
    destruct (step_untouched _ _ _ _ Hw0 H0 Hstep H1) as [Hu1 Hn1].
    destruct (IH _ _ Hu1 Hrest) as [Hu2 Hn2].
    split; [exact Hu2|]. rewrite count_app, Hn1, Hn2. reflexivity.
Qed.

Lemma disconnected_page_is_untouched_witness :
  balances filled = JArr [] ∧
  orderData filled = orderData initial ∧
  Forall (λ req, is_connect_request req = true) [] ∧
  count is_balances_fetch [Fetch (PostConnect "k" "s" "default")] = 0.
Proof.
  exact (disconnected_page_is_untouched
           [User (TypeApiKey "k"); User (TypeApiSecret "s"); User ClickConnect;
            Settle 0 (http 403 (inl SyntaxError))]
           {| component := filled; inflight := []; mounted := true |}
           [Fetch (PostConnect "k" "s" "default")] eq_refl eq_refl).
Defined.

Lemma resume_keeps_credentials (req : Request) (o : FetchOutcome) (c : Component) :
  apiKey (after (resume req o c)) = apiKey c ∧
  apiSecret (after (resume req o c)) = apiSecret c.
Proof.
  destruct req; cbn [resume].
  - rewrite connectBinance_resume_after. split; reflexivity.
  - rewrite fetchBalances_resume_after.
    destruct (fetched_balances o) as [e|b]; [|destruct (truthy b)]; split; reflexivity.
  - rewrite placeOrder_resume_after. split; reflexivity.
Qed.

Lemma step_connected_credentials (w w' : World) (ev : Event) (effs : list Effect) :
  isConnected (component w) = true →
  step w ev = Some (w', effs) →
  apiKey (component w') = apiKey (component w) ∧
  apiSecret (component w') = apiSecret (component w) ∧
  count is_connect_fetch effs = 0.
Proof.
  intros Hc Hstep. destruct ev as [a|i o]; cbn in Hstep.
  - destruct (mounted w); [|discriminate]. cbn [andb] in Hstep.
    destruct (enabled (component w) a) eqn:Hen; [|discriminate].
    injection Hstep as <- <-. apply enabled_inv in Hen as (_ & Hen & _).
    rewrite Hc in Hen.
    destruct a; cbn in Hen |- *; try discriminate; repeat split; reflexivity.
  - destruct (inflight w !! i) as [req|]; [|discriminate].
    injection Hstep as <- <-. cbn.
    destruct (resume_keeps_credentials req o (component w)) as [Hk Hs].
    repeat split; [exact Hk|exact Hs|apply resume_sends_balances_only].
Qed.

(** X8: once the session is Connected the credentials are frozen. Along
    every run of the page from a Connected state, apiKey and apiSecret keep
    their values and no further connect request is sent. *)
Theorem connected_freezes_credentials
    (evs : list Event) (w w' : World) (effs : list Effect) :
  isConnected (component w) = true →
  exec w evs = Some (w', effs) →
  apiKey (component w') = apiKey (component w) ∧
  apiSecret (component w') = apiSecret (component w) ∧
  count is_connect_fetch effs = 0.
Proof.
  revert w effs. induction evs as [|ev evs IH]; intros w effs Hc Hexec; cbn in Hexec.
  - injection Hexec as <- <-. repeat split; reflexivity.
  - destruct (step w ev) as [[w1 effs1]|] eqn:Hstep; [|discriminate].
    destruct (exec w1 evs) as [[w2 effs2]|] eqn:Hrest; [|discriminate].
    injection Hexec as <- <-.
    destruct (step_connected_credentials _ _ _ _ Hc Hstep) as (Hk1 & Hs1 & Hn1).
    pose proof (step_keeps_connected _ _ _ _ Hc Hstep) as Hc1.
    destruct (IH _ _ Hc1 Hrest) as (Hk2 & Hs2 & Hn2).
    rewrite count_app, Hn1, Hn2, Hk2, Hs2, Hk1, Hs1. repeat split; reflexivity.
Qed.

Lemma connected_freezes_credentials_witness :
  apiKey (with_loading false linked) = apiKey linked ∧
  apiSecret (with_loading false linked) = apiSecret linked ∧
  count is_connect_fetch
    [Fetch (PostOrder (orderData linked) "default");
     ConsoleError "Order failed:" NetworkFailure] = 0.
Proof.
  exact (connected_freezes_credentials
           [User ClickOrder; Settle 0 Rejected]
           {| component := linked; inflight := []; mounted := true |}
           {| component := with_loading false linked; inflight := []; mounted := true |}
           [Fetch (PostOrder (orderData linked) "default");
            ConsoleError "Order failed:" NetworkFailure] eq_refl eq_refl).
Defined.

Lemma resume_keeps_orderData (req : Request) (o : FetchOutcome) (c : Component) :
  orderData (after (resume req o c)) = orderData c.
Proof.
  destruct req; cbn [resume].
  - rewrite connectBinance_resume_after. reflexivity.
  - rewrite fetchBalances_resume_after.
    destruct (fetched_balances o) as [e|b]; [|destruct (truthy b)]; reflexivity.
  - rewrite placeOrder_resume_after. reflexivity.
Qed.

Lemma resume_sends_no_order (req : Request) (o : FetchOutcome) (c : Component)
    (order : OrderData) (u : string) :
  Fetch (PostOrder order u) ∉ effects (resume req o c).
Proof.
  destruct req; cbn [resume].
  - rewrite connectBinance_resume_effects.
    destruct o as [|r]; [|destruct (ok r)];
      rewrite ?elem_of_cons, ?elem_of_nil; intros H; intuition discriminate.
  - rewrite fetchBalances_resume_effects.
    destruct (fetched_balances o);
      rewrite ?elem_of_cons, ?elem_of_nil; intros H; intuition discriminate.
  - rewrite placeOrder_resume_effects.
    destruct o as [|r]; [|destruct (ok r); [destruct (json r)|]];
      rewrite ?elem_of_cons, ?elem_of_nil; intros H; intuition discriminate.
Qed.

Lemma step_menu_order (w w' : World) (ev : Event) (effs : list Effect) :
  menu_order (orderData (component w)) →
  step w ev = Some (w', effs) →
  menu_order (orderData (component w')) ∧
  ∀ order u, Fetch (PostOrder order u) ∈ effs → menu_order order ∧ u = "default".
Proof.
  intros Hm Hstep. destruct ev as [a|i o]; cbn in Hstep.
  - destruct (mounted w); [|discriminate]. cbn [andb] in Hstep.
    destruct (enabled (component w) a) eqn:Hen; [|discriminate].
    injection Hstep as <- <-.
    destruct a; cbn; (split; [|intros order u;
      rewrite ?elem_of_cons, ?elem_of_nil; intros H; try (exfalso; intuition discriminate)]);
      try exact Hm.
    + destruct Hm as [Ht _]. split; [exact Ht|]. cbn.
      unfold enabled in Hen. cbn in Hen.
      apply andb_prop in Hen as [_ Hoff]. apply bool_decide_eq_true in Hoff. exact Hoff.
    + destruct H as [H|[]]. injection H as -> ->. split; [exact Hm|reflexivity].
  - destruct (inflight w !! i) as [req|]; [|discriminate].
    injection Hstep as <- <-. cbn. rewrite resume_keeps_orderData.
    split; [exact Hm|]. intros order u H. exfalso.
    exact (resume_sends_no_order req o _ order u H).
Qed.

(** X9: every order request the page ever sends has type MARKET, one of
    the three symbols of the select (BTCUSDT, ETHUSDT, BNBUSDT) and the
    user id "default": no control writes the `type` field and the symbol
    can only be picked from the select. The draft itself keeps that form
    along every run from the first render. *)
Theorem orders_are_market_on_menu_symbols
    (evs : list Event) (w : World) (effs : list Effect) :
  exec start evs = Some (w, effs) →
  menu_order (orderData (component w)) ∧
  ∀ order u, Fetch (PostOrder order u) ∈ effs →
    type order = MARKET ∧ symbol order ∈ symbol_items ∧ u = "default".
Proof.
  intros Hexec.
  assert (Hstart : menu_order (orderData (component start))).
  { split; [reflexivity|]. apply elem_of_cons. left. reflexivity. }
  enough (menu_order (orderData (component w)) ∧
          ∀ order u, Fetch (PostOrder order u) ∈ effs → menu_order order ∧ u = "default")
    as [Hm Hall].
  { split; [exact Hm|]. intros order u H. destruct (Hall order u H) as [[? ?] ?].
    repeat split; assumption. }
  revert Hstart Hexec. generalize start as w0. revert effs.
  induction evs as [|ev evs IH]; intros effs w0 H0 Hexec; cbn in Hexec.
  - injection Hexec as <- <-. split; [exact H0|].
    intros order u H. apply elem_of_nil in H. destruct H.
  - destruct (step w0 ev) as [[w1 effs1]|] eqn:Hstep; [|discriminate].
    destruct (exec w1 evs) as [[w2 effs2]|] eqn:Hrest; [|discriminate].
    injection Hexec as <- <-.
    destruct (step_menu_order _ _ _ _ H0 Hstep) as [H1 Hall1].
    destruct (IH _ _ H1 Hrest) as [H2 Hall2].
    split; [exact H2|]. intros order u H. apply elem_of_app in H as [H|H]; eauto.
Qed.

Lemma orders_are_market_on_menu_symbols_witness :
  menu_order
    {| symbol := "ETHUSDT"; side := SELL; type := MARKET; quantity := quantity (orderData initial) |} ∧
  ∀ order u,
    Fetch (PostOrder order u) ∈
      [Fetch (PostConnect "k" "s" "default"); Fetch (GetBalances "default");
       Fetch (PostOrder {| symbol := "ETHUSDT"; side := SELL; type := MARKET;
                           quantity := quantity (orderData initial) |} "default")] →
    type order = MARKET ∧ symbol order ∈ symbol_items ∧ u = "default".
Proof.
  exact (orders_are_market_on_menu_symbols
           [User (TypeApiKey "k"); User (TypeApiSecret "s"); User ClickConnect;
            Settle 0 (http 200 (inr JNull));
            User (SelectSymbol "ETHUSDT"); User (SelectSide SELL); User ClickOrder]
           _ _ eq_refl).
Defined.

(** X10: the quantity is not validated. On a mounted, Connected page that
    shows a list of Balance records and is not loading, typing a quantity
    and clicking the order button sends the order with the draft holding
    exactly the number `Number.parseFloat` gave, NaN, zero and negative
    numbers included. In the JSON body of the request the quantity is that
    number (with -0 written 0), or null when it is NaN. *)
Theorem any_quantity_is_submitted (w : World) (q : float) (bs : list Balance) :
  mounted w = true →
  isConnected (component w) = true →
  loading (component w) = false →
  balances (component w) = balances_js bs →
  is_infinity q = false →
  exec w [User (TypeQuantity q); User ClickOrder] =
    Some ({| component :=
               with_loading true
                 (with_orderData (with_quantity q (orderData (component w))) (component w));
             inflight :=
               inflight w ++ [PostOrder (with_quantity q (orderData (component w))) "default"];
             mounted := true |},
          [Fetch (PostOrder (with_quantity q (orderData (component w))) "default")]) ∧
  ∃ props,
    request_body (PostOrder (with_quantity q (orderData (component w))) "default") =
      Some (JObj props) ∧
    props !! "quantity" =
      Some (if is_nan q then JNull else if PrimFloat.eqb q 0 then JNum 0 else JNum q).
Proof.
  destruct w as [[connected rows key secret busy draft] fl m].
  cbn [mounted component isConnected loading balances orderData inflight].
  intros -> -> -> -> Hq. split.
  - unfold exec, step, enabled, rendered, disabled, page_renders, dispatch.
    cbn -[forallb row_renders fmap].
    repeat (rewrite rows_render; cbn -[forallb row_renders fmap]).
    rewrite app_nil_r. reflexivity.
  - eexists. split; [reflexivity|].
    unfold number_json. cbn [quantity with_quantity]. rewrite Hq, orb_false_r.
    reflexivity.
Qed.

Lemma any_quantity_is_submitted_witness :
  exec {| component := linked; inflight := []; mounted := true |}
       [User (TypeQuantity nan); User ClickOrder] =
    Some ({| component :=
               with_loading true
                 (with_orderData (with_quantity nan (orderData linked)) linked);
             inflight := [] ++ [PostOrder (with_quantity nan (orderData linked)) "default"];
             mounted := true |},
          [Fetch (PostOrder (with_quantity nan (orderData linked)) "default")]) ∧
  ∃ props,
    request_body (PostOrder (with_quantity nan (orderData linked)) "default") =
      Some (JObj props) ∧
    props !! "quantity" =
      Some (if is_nan nan then JNull else if PrimFloat.eqb nan 0 then JNum 0 else JNum nan).
Proof.
  exact (any_quantity_is_submitted {| component := linked; inflight := []; mounted := true |}
           nan [btc_row] eq_refl eq_refl eq_refl eq_refl eq_refl).
Defined.

(* With NaN typed, the body says `"quantity": null`. *)
Lemma nan_quantity_goes_out_as_null :
  request_body (PostOrder (with_quantity nan (orderData linked)) "default") =
    Some (JObj (<["symbol" := JStr "BTCUSDT"]>
               (<["side" := JStr "BUY"]>
               (<["type" := JStr "MARKET"]>
               (<["quantity" := JNull]>
               (<["user_id" := JStr "default"]> ∅)))))).
Proof. reflexivity. Qed.

(** X11: the draft edits of the trading tab are independent. Each of
    symbol, side and quantity is written without disturbing the two
    others, so edits of different fields give the same draft in either
    order and a repeated edit of one field keeps the last value; no edit
    sends anything or touches the rest of the component state. *)
Theorem draft_edits_compose (c : Component) (s1 s2 : string) (d : Side) (q : float) :
  after (on_action (SelectSide d) (after (on_action (SelectSymbol s1) c))) =
    after (on_action (SelectSymbol s1) (after (on_action (SelectSide d) c))) ∧
  after (on_action (TypeQuantity q) (after (on_action (SelectSymbol s1) c))) =
    after (on_action (SelectSymbol s1) (after (on_action (TypeQuantity q) c))) ∧
  after (on_action (TypeQuantity q) (after (on_action (SelectSide d) c))) =
    after (on_action (SelectSide d) (after (on_action (TypeQuantity q) c))) ∧
  after (on_action (SelectSymbol s2) (after (on_action (SelectSymbol s1) c))) =
    after (on_action (SelectSymbol s2) c) ∧
  orderData (after (on_action (TypeQuantity q)
               (after (on_action (SelectSide d) (after (on_action (SelectSymbol s1) c)))))) =
    {| symbol := s1; side := d; type := type (orderData c); quantity := q |} ∧
  with_orderData (orderData c)
    (after (on_action (TypeQuantity q)
       (after (on_action (SelectSide d) (after (on_action (SelectSymbol s1) c)))))) =
    with_orderData (orderData c) c ∧
  effects (on_action (SelectSymbol s1) c) ++ effects (on_action (SelectSide d) c)
    ++ effects (on_action (TypeQuantity q) c) = [].
Proof. repeat split. Qed.

(** X12: the whole connect flow. With non-empty credentials typed into the
    fresh page, a connect click answered by any ok response, followed by a
    balances response whose `balances` is a list of Balance records, ends
    with the page mounted and Connected, showing exactly that list, with
    nothing loading or in flight, having sent one connect request with the
    typed credentials and one balances request. *)
Theorem connect_flow (k s : string) (r rb : Response) (bs : list Balance) :
  string_truthy k = true →
  string_truthy s = true →
  ok r = true →
  fetched_balances (Resolved rb) = inr (balances_js bs) →
  exec start
    [User (TypeApiKey k); User (TypeApiSecret s); User ClickConnect;
     Settle 0 (Resolved r); Settle 0 (Resolved rb)] =
  Some ({| component :=
             {| isConnected := true; balances := balances_js bs; apiKey := k;
                apiSecret := s; loading := false; orderData := orderData initial |};
           inflight := []; mounted := true |},
        [Fetch (PostConnect k s "default"); Fetch (GetBalances "default")]).
Proof.
  intros Hk Hs Hok Hv.
  unfold exec, step, enabled, dispatch.
  cbn -[connectBinance_resume fetchBalances_resume].
  rewrite Hk, Hs.
  cbn -[connectBinance_resume fetchBalances_resume].
  rewrite connectBinance_resume_effects, connectBinance_resume_after, Hok.
  cbn -[connectBinance_resume fetchBalances_resume].
  rewrite fetchBalances_resume_effects, fetchBalances_resume_after, Hv.
  cbn -[forallb row_renders fmap]. rewrite Hok.
  cbn -[forallb row_renders fmap]. rewrite rows_render. reflexivity.
Qed.

Lemma connect_flow_witness :
  exec start
    [User (TypeApiKey "k"); User (TypeApiSecret "s"); User ClickConnect;
     Settle 0 (http 201 (inl SyntaxError));
     Settle 0 (http 200 (inr (balances_body (balances_js [btc_row]))))] =
  Some ({| component :=
             {| isConnected := true; balances := balances_js [btc_row]; apiKey := "k";
                apiSecret := "s"; loading := false; orderData := orderData initial |};
           inflight := []; mounted := true |},
        [Fetch (PostConnect "k" "s" "default"); Fetch (GetBalances "default")]).
Proof.
  exact (connect_flow "k" "s" {| status := 201; json := inl SyntaxError |}
           {| status := 200; json := inr (balances_body (balances_js [btc_row])) |}
           [btc_row] eq_refl eq_refl eq_refl eq_refl).
Defined.

(** X21: what the handlers do not read. A balances refresh never looks at
    the HTTP status: two responses with the same body are treated alike,
    so a not-ok response that carries a usable `balances` value replaces
    the collection. A connect attempt never looks at the response body:
    two responses with the same status are treated alike, even when the
    body is not JSON. *)
Theorem handlers_ignore_status_or_body
    (c : Component) (st st' : nat) (body body' : JsError + jsval) :
  fetchBalances (http st body) c = fetchBalances (http st' body) c ∧
  fetchBalances_resume (http st body) c = fetchBalances_resume (http st' body) c ∧
  connectBinance (http st body) c = connectBinance (http st body') c ∧
  connectBinance_resume (http st body) c = connectBinance_resume (http st body') c.
Proof.
  split; [reflexivity|]. split; [reflexivity|].
  unfold connectBinance, connectBinance_resume, http. run_js.
  unfold ok. cbn [status].
  destruct ((200 <=? st) && (st <=? 299)); split; reflexivity.
Qed.

(* ===================================================================== *)
(* Properties of the phone-verification route                            *)
(* ===================================================================== *)

Ltac calm := cbn -[Nat.ltb Nat.leb Nat.eqb PhoneVerify.null_body_status].

Ltac run_task :=
  unfold PhoneVerify.POST, PhoneVerify.attempt, PhoneVerify.and_then, PhoneVerify.awaited,
         PhoneVerify.perform, PhoneVerify.pure, PhoneVerify.raise,
         PhoneVerify.NextResponse_json;
  calm.

(* The three ways the route can end once the request body has been read:
   relay of an upstream success, relay of an upstream error, or the reply
   of the `catch` block. *)
Lemma POST_readable (body phone code : jsval) (up : FetchOutcome) (text : JsError + string) :
  PhoneVerify.property "phone" body = inr phone →
  PhoneVerify.property "code" body = inr code →
  PhoneVerify.POST (inr body) up text =
    match up with
    | Rejected =>
        ([PhoneVerify.VerifyPost phone code;
          PhoneVerify.LogVerifyError (PhoneVerify.Js NetworkFailure)],
         inr PhoneVerify.failure_reply)
    | Resolved r =>
        if ok r then
          match json r with
          | inl e =>
              ([PhoneVerify.VerifyPost phone code;
                PhoneVerify.LogVerifyError (PhoneVerify.Js e)],
               inr PhoneVerify.failure_reply)
          | inr data =>
              ([PhoneVerify.VerifyPost phone code],
               inr {| PhoneVerify.reply_status := 200; PhoneVerify.reply_body := data |})
          end
        else
          match text with
          | inl e =>
              ([PhoneVerify.VerifyPost phone code;
                PhoneVerify.LogVerifyError (PhoneVerify.Js e)],
               inr PhoneVerify.failure_reply)
          | inr msg =>
              if (status r <? 200) || (599 <? status r) then
                ([PhoneVerify.VerifyPost phone code;
                  PhoneVerify.LogVerifyError PhoneVerify.RangeError],
                 inr PhoneVerify.failure_reply)
              else if PhoneVerify.null_body_status (status r) then
                ([PhoneVerify.VerifyPost phone code;
                  PhoneVerify.LogVerifyError (PhoneVerify.Js TypeError)],
                 inr PhoneVerify.failure_reply)
              else
                ([PhoneVerify.VerifyPost phone code],
                 inr {| PhoneVerify.reply_status := status r;
                        PhoneVerify.reply_body := JObj (<["error" := JStr msg]> ∅) |})
          end
    end.
Proof.
  intros Hp Hc. run_task. rewrite Hp. calm. rewrite Hc. calm.
  destruct up as [|r]; [reflexivity|].
  destruct (ok r); calm.
  - destruct (json r); reflexivity.
  - destruct text as [e|msg]; [reflexivity|]. calm.
    destruct ((status r <? 200) || (599 <? status r)); [reflexivity|].
    destruct (PhoneVerify.null_body_status (status r)); reflexivity.
Qed.

Lemma POST_unreadable (rq : JsError + jsval) (up : FetchOutcome) (text : JsError + string) :
  match rq with
  | inl _ => True
  | inr body => PhoneVerify.property "phone" body = inl TypeError
  end →
  PhoneVerify.POST rq up text =
    ([PhoneVerify.LogVerifyError
        (PhoneVerify.Js match rq with inl e => e | inr _ => TypeError end)],
     inr PhoneVerify.failure_reply).
Proof.
  destruct rq as [e|body]; intros H; run_task; [reflexivity|].
  rewrite H. reflexivity.
Qed.

Lemma property_total_or_null (k1 k2 : string) (body : jsval) :
  (PhoneVerify.property k1 body = inl TypeError ∧
   PhoneVerify.property k2 body = inl TypeError) ∨
  (∃ v1 v2, PhoneVerify.property k1 body = inr v1 ∧ PhoneVerify.property k2 body = inr v2).
Proof. destruct body; cbn; eauto. Qed.

(** X13: the route never rejects and never answers outside what a
    Response allows. For every request body, upstream outcome and upstream
    text it returns a reply whose status is 200, 500, or the status of an
    upstream response that was not ok; in all cases a status in 200..599
    that may carry a body. *)
Theorem verify_always_replies
    (rq : JsError + jsval) (up : FetchOutcome) (text : JsError + string) :
  ∃ reply,
    snd (PhoneVerify.POST rq up text) = inr reply ∧
    200 ≤ PhoneVerify.reply_status reply ≤ 599 ∧
    PhoneVerify.null_body_status (PhoneVerify.reply_status reply) = false ∧
    (PhoneVerify.reply_status reply = 200 ∨
     PhoneVerify.reply_status reply = 500 ∨
     ∃ r, up = Resolved r ∧ ok r = false ∧ PhoneVerify.reply_status reply = status r).
Proof.
  assert (Hfail : 200 ≤ PhoneVerify.reply_status PhoneVerify.failure_reply ≤ 599 ∧
                  PhoneVerify.null_body_status
                    (PhoneVerify.reply_status PhoneVerify.failure_reply) = false ∧
                  (PhoneVerify.reply_status PhoneVerify.failure_reply = 200 ∨
                   PhoneVerify.reply_status PhoneVerify.failure_reply = 500 ∨
                   ∃ r, up = Resolved r ∧ ok r = false ∧
                        PhoneVerify.reply_status PhoneVerify.failure_reply = status r)).
  { cbn. repeat split; try lia. }
  destruct rq as [e|body].
  { rewrite POST_unreadable by exact I. eexists. split; [reflexivity|exact Hfail]. }
  destruct (property_total_or_null "phone" "code" body) as [[Hp _]|(phone & code & Hp & Hc)].
  { rewrite POST_unreadable by exact Hp. eexists. split; [reflexivity|exact Hfail]. }
  rewrite (POST_readable _ _ _ _ _ Hp Hc).
  destruct up as [|r]; [eexists; split; [reflexivity|exact Hfail]|].
  destruct (ok r) eqn:Hok.
  - destruct (json r); eexists; (split; [reflexivity|]); [exact Hfail|].
    cbn. repeat split; try lia.
  - destruct text as [e|msg]; [eexists; split; [reflexivity|exact Hfail]|].
    destruct ((status r <? 200) || (599 <? status r)) eqn:Hrange;
      [eexists; split; [reflexivity|exact Hfail]|].
    destruct (PhoneVerify.null_body_status (status r)) eqn:Hnull;
      [eexists; split; [reflexivity|exact Hfail]|].
    eexists. split; [reflexivity|]. cbn.
    apply orb_false_elim in Hrange as [H1 H2].
    apply Nat.ltb_ge in H1. apply Nat.ltb_ge in H2.
    repeat split; try lia; try exact Hnull.
    right. right. exists r. repeat split. exact Hok.
Qed.



(** X15: an upstream error is passed through. When the backend answers
    with a status that is not ok, lies in 200..599 and is not a null-body
    status, the route replies with that same status and the body
    { error: <the upstream text> }, and logs nothing. *)
Theorem verify_relays_upstream_error
    (body phone code : jsval) (r : Response) (msg : string) :
  PhoneVerify.property "phone" body = inr phone →
  PhoneVerify.property "code" body = inr code →
  ok r = false →
  200 ≤ status r ≤ 599 →
  PhoneVerify.null_body_status (status r) = false →
  PhoneVerify.POST (inr body) (Resolved r) (inr msg) =
    ([PhoneVerify.VerifyPost phone code],
     inr {| PhoneVerify.reply_status := status r;
            PhoneVerify.reply_body := JObj (<["error" := JStr msg]> ∅) |}).
Proof.
  intros Hp Hc Hok [Hlo Hhi] Hnull.
  rewrite (POST_readable _ _ _ _ _ Hp Hc), Hok, Hnull.
  replace ((status r <? 200) || (599 <? status r)) with false; [reflexivity|].
  symmetry. apply orb_false_intro; apply Nat.ltb_ge; assumption.
Qed.

Lemma verify_relays_upstream_error_witness :
  PhoneVerify.POST (inr verify_request) (http 401 (inl SyntaxError)) (inr "Invalid code") =
    ([PhoneVerify.VerifyPost (JStr "+15550100") (JStr "123456")],
     inr {| PhoneVerify.reply_status := 401;
            PhoneVerify.reply_body := JObj (<["error" := JStr "Invalid code"]> ∅) |}).
Proof.
  refine (verify_relays_upstream_error verify_request (JStr "+15550100") (JStr "123456")
            {| status := 401; json := inl SyntaxError |} "Invalid code"
            eq_refl eq_refl eq_refl _ eq_refl).
  cbn. lia.
Defined.

(** X16: every exception ends in the fixed failure reply. Whenever the
    route logs an error (an unreadable or null request body, an
    unreachable backend, an unparseable success body, a status the
    Response constructor refuses) the reply is 500 with
    { error: "Failed to verify OTP" }, the error is logged exactly once as
    the last effect, and when the request body itself was unreadable the
    backend is never called. *)
Theorem verify_failure_reply
    (rq : JsError + jsval) (up : FetchOutcome) (text : JsError + string) :
  count_occ bool_dec (PhoneVerify.is_log <$> fst (PhoneVerify.POST rq up text)) true ≤ 1 ∧
  ((∃ e, PhoneVerify.LogVerifyError e ∈ fst (PhoneVerify.POST rq up text)) →
   snd (PhoneVerify.POST rq up text) = inr PhoneVerify.failure_reply ∧
   ∃ e sent, fst (PhoneVerify.POST rq up text) = sent ++ [PhoneVerify.LogVerifyError e] ∧
             (match rq with
              | inl _ => sent = []
              | inr body =>
                  PhoneVerify.property "phone" body = inl TypeError → sent = []
              end)).
Proof.
  destruct rq as [e|body].
  { rewrite POST_unreadable by exact I. cbn. split; [lia|]. intros _.
    split; [reflexivity|]. exists (PhoneVerify.Js e), []. split; reflexivity. }
  destruct (property_total_or_null "phone" "code" body) as [[Hp _]|(phone & code & Hp & Hc)].
  { rewrite POST_unreadable by exact Hp. cbn. split; [lia|]. intros _.
    split; [reflexivity|]. exists (PhoneVerify.Js TypeError), []. split; reflexivity. }
  rewrite (POST_readable _ _ _ _ _ Hp Hc).
  assert (Hlogged : ∀ e,
    count_occ bool_dec
      (PhoneVerify.is_log <$>
         [PhoneVerify.VerifyPost phone code; PhoneVerify.LogVerifyError e]) true ≤ 1 ∧
    ((∃ e', PhoneVerify.LogVerifyError e' ∈
              [PhoneVerify.VerifyPost phone code; PhoneVerify.LogVerifyError e]) →
     @inr PhoneVerify.Thrown _ PhoneVerify.failure_reply = inr PhoneVerify.failure_reply ∧
     ∃ e' sent,
       [PhoneVerify.VerifyPost phone code; PhoneVerify.LogVerifyError e] =
         sent ++ [PhoneVerify.LogVerifyError e'] ∧
       (PhoneVerify.property "phone" body = inl TypeError → sent = []))).
  { intros e. cbn. split; [lia|]. intros _. split; [reflexivity|].
    exists e, [PhoneVerify.VerifyPost phone code]. split; [reflexivity|].
    rewrite Hp. discriminate. }
  assert (Hquiet : ∀ reply,
    count_occ bool_dec
      (PhoneVerify.is_log <$> [PhoneVerify.VerifyPost phone code]) true ≤ 1 ∧
    ((∃ e', PhoneVerify.LogVerifyError e' ∈ [PhoneVerify.VerifyPost phone code]) →
     @inr PhoneVerify.Thrown _ reply = inr PhoneVerify.failure_reply ∧
     ∃ e' sent,
       [PhoneVerify.VerifyPost phone code] = sent ++ [PhoneVerify.LogVerifyError e'] ∧
       (PhoneVerify.property "phone" body = inl TypeError → sent = []))).
  { intros reply. cbn. split; [lia|]. intros [e' He'].
    apply list_elem_of_singleton in He'. discriminate. }
  destruct up as [|r]; [apply Hlogged|].
  destruct (ok r).
  - destruct (json r); [apply Hlogged|apply Hquiet].
  - destruct text as [e|msg]; [apply Hlogged|].
    destruct ((status r <? 200) || (599 <? status r)); [apply Hlogged|].
    destruct (PhoneVerify.null_body_status (status r)); [apply Hlogged|apply Hquiet].
Qed.

(** X17: only `phone` and `code` matter. Two request objects that agree on
    their `phone` and `code` properties (whatever else they carry) make the
    route do exactly the same: same call to the backend, same log, same
    reply. A missing property is forwarded as `undefined`, without any
    check. *)
Theorem verify_reads_only_phone_and_code
    (m1 m2 : gmap string jsval) (up : FetchOutcome) (text : JsError + string) :
  m1 !! "phone" = m2 !! "phone" →
  m1 !! "code" = m2 !! "code" →
  PhoneVerify.POST (inr (JObj m1)) up text = PhoneVerify.POST (inr (JObj m2)) up text ∧
  ∃ rest,
    fst (PhoneVerify.POST (inr (JObj m1)) up text) =
      PhoneVerify.VerifyPost (default JUndefined (m1 !! "phone"))
                             (default JUndefined (m1 !! "code")) :: rest.
Proof.
  intros Hp Hc.
  rewrite (POST_readable (JObj m1) _ _ up text eq_refl eq_refl).
  rewrite (POST_readable (JObj m2) _ _ up text eq_refl eq_refl).
  rewrite Hp, Hc. split; [reflexivity|].
  destruct up as [|r]; [eexists; reflexivity|].
  destruct (ok r).
  - destruct (json r); eexists; reflexivity.
  - destruct text as [e|msg]; [eexists; reflexivity|].
    destruct ((status r <? 200) || (599 <? status r)); [eexists; reflexivity|].
    destruct (PhoneVerify.null_body_status (status r)); eexists; reflexivity.
Qed.

Lemma verify_reads_only_phone_and_code_witness :
  PhoneVerify.POST (inr (JObj phone_only)) Rejected (inr "") =
  PhoneVerify.POST (inr (JObj phone_and_stray)) Rejected (inr "") ∧
  ∃ rest,
    fst (PhoneVerify.POST (inr (JObj phone_only)) Rejected (inr "")) =
      PhoneVerify.VerifyPost (default JUndefined (phone_only !! "phone"))
                             (default JUndefined (phone_only !! "code")) :: rest.
Proof.
  exact (verify_reads_only_phone_and_code phone_only phone_and_stray
           Rejected (inr "") eq_refl eq_refl).
Defined.

(* ===================================================================== *)
(* Properties of the page that mounts the trading interface              *)
(* ===================================================================== *)

Lemma dashboard_step_inv (s s' : Dashboard.State) (a : Dashboard.Action)
    (logs : list Dashboard.Log) :
  Dashboard.step s a = Some (s', logs) →
  Dashboard.available s a = true ∧
  s' = fst (Dashboard.handle a s) ∧ logs = snd (Dashboard.handle a s).
Proof.
  unfold Dashboard.step. destruct (Dashboard.available s a); [|discriminate].
  intros H. injection H as H. rewrite H. repeat split.
Qed.




(* What a run does to `user`, `isAuthenticated` and the console. *)
Lemma dashboard_exec_auth
    (acts : list Dashboard.Action) (s s' : Dashboard.State) (logs : list Dashboard.Log) :
  Dashboard.exec s acts = Some (s', logs) →
  logs = Dashboard.auth_logs acts ∧
  match Dashboard.last_auth acts with
  | Some d => Dashboard.user s' = d ∧ Dashboard.isAuthenticated s' = true
  | None => Dashboard.user s' = Dashboard.user s ∧
            Dashboard.isAuthenticated s' = Dashboard.isAuthenticated s
  end.
Proof.
  revert s logs. induction acts as [|a acts IH]; intros s logs Hexec; cbn in Hexec.
  - injection Hexec as <- <-. repeat split.
  - destruct (Dashboard.step s a) as [[s1 logs1]|] eqn:Hstep; [|discriminate].
    destruct (Dashboard.exec s1 acts) as [[s2 logs2]|] eqn:Hrest; [|discriminate].
    injection Hexec as <- <-.
    apply dashboard_step_inv in Hstep as (_ & -> & ->).
    destruct (IH _ _ Hrest) as [Hl Hu]. cbn [Dashboard.last_auth].
    split.
    + rewrite Hl. destruct a; reflexivity.
    + destruct (Dashboard.last_auth acts) as [d|]; [exact Hu|].
      destruct Hu as [Hu1 Hu2]. rewrite Hu1, Hu2. destruct a; split; reflexivity.
Qed.

Lemma dashboard_exec_splash
    (acts : list Dashboard.Action) (s s' : Dashboard.State) (logs : list Dashboard.Log) :
  Dashboard.exec s acts = Some (s', logs) →
  Dashboard.showSplash s = true →
  Dashboard.showSplash s' = false →
  ∃ a, a ∈ acts ∧ Dashboard.leaves_splash a = true.
Proof.
  revert s logs. induction acts as [|a acts IH]; intros s logs Hexec H0 H1; cbn in Hexec.
  - injection Hexec as <- _. congruence.
  - destruct (Dashboard.step s a) as [[s1 l1]|] eqn:Hstep; [|discriminate].
    destruct (Dashboard.exec s1 acts) as [[s2 l2]|] eqn:Hrest; [|discriminate].
    injection Hexec as <- _.
    apply dashboard_step_inv in Hstep as (Hon & -> & _).
    destruct (Dashboard.leaves_splash a) eqn:Hl.
    + exists a. split; [apply elem_of_cons; left; reflexivity|exact Hl].
    + assert (Hkeep : Dashboard.showSplash (fst (Dashboard.handle a s)) = true)
        by (destruct a; cbn in *; try discriminate; exact H0).
      destruct (IH _ _ Hrest Hkeep H1) as (b & Hb & Hlb).
      exists b. split; [apply elem_of_cons; right; exact Hb|exact Hlb].
Qed.

(** X19: the trading interface is only mounted behind the splash screen
    and the authentication callback. On every run of the page from its
    first render that ends where the trading interface can be mounted, the
    splash screen was left through its login or register button and
    `handleAuthSuccess` has run at least once; `user` holds the data of its
    last call, and the console shows one line per call, in order, and
    nothing else. *)
Theorem trading_interface_needs_authentication
    (acts : list Dashboard.Action) (s : Dashboard.State) (logs : list Dashboard.Log) :
  Dashboard.exec Dashboard.initial acts = Some (s, logs) →
  Dashboard.trading_interface_mountable s = true →
  Dashboard.showSplash s = false ∧
  Dashboard.isAuthenticated s = true ∧
  (∃ a, a ∈ acts ∧ Dashboard.leaves_splash a = true) ∧
  (∃ userData, Dashboard.last_auth acts = Some userData ∧ Dashboard.user s = userData) ∧
  logs = Dashboard.auth_logs acts.
Proof.
  intros Hexec Hmount.
  assert (Hscreen : Dashboard.showSplash s = false ∧ Dashboard.isAuthenticated s = true).
  { unfold Dashboard.trading_interface_mountable, Dashboard.screen in Hmount.
    destruct (Dashboard.showSplash s), (Dashboard.isAuthenticated s);
      cbn in Hmount; try discriminate; split; reflexivity. }
  destruct Hscreen as [Hsp Hau]. split; [exact Hsp|]. split; [exact Hau|].
  split; [exact (dashboard_exec_splash _ _ _ _ Hexec eq_refl Hsp)|].
  destruct (dashboard_exec_auth _ _ _ _ Hexec) as [Hl Hu].
  split; [|exact Hl].
  destruct (Dashboard.last_auth acts) as [d|].
  - exists d. split; [reflexivity|apply Hu].
  - destruct Hu as [_ Hu]. cbn in Hu. congruence.
Qed.

Lemma trading_interface_needs_authentication_witness :
  Dashboard.showSplash
    {| Dashboard.isArabic := false; Dashboard.isAuthenticated := true;
       Dashboard.user := JStr "amina"; Dashboard.showSplash := false;
       Dashboard.isSystemRunning := false |} = false ∧
  Dashboard.isAuthenticated
    {| Dashboard.isArabic := false; Dashboard.isAuthenticated := true;
       Dashboard.user := JStr "amina"; Dashboard.showSplash := false;
       Dashboard.isSystemRunning := false |} = true ∧
  (∃ a, a ∈ [Dashboard.OnLogin; Dashboard.OnAuthSuccess JNull;
             Dashboard.OnAuthSuccess (JStr "amina"); Dashboard.ClickSystem] ∧
        Dashboard.leaves_splash a = true) ∧
  (∃ userData,
     Dashboard.last_auth [Dashboard.OnLogin; Dashboard.OnAuthSuccess JNull;
                          Dashboard.OnAuthSuccess (JStr "amina"); Dashboard.ClickSystem] =
       Some userData ∧
     Dashboard.user
       {| Dashboard.isArabic := false; Dashboard.isAuthenticated := true;
          Dashboard.user := JStr "amina"; Dashboard.showSplash := false;
          Dashboard.isSystemRunning := false |} = userData) ∧
  [Dashboard.AuthenticationSuccessful JNull;
   Dashboard.AuthenticationSuccessful (JStr "amina")] =
    Dashboard.auth_logs [Dashboard.OnLogin; Dashboard.OnAuthSuccess JNull;
                         Dashboard.OnAuthSuccess (JStr "amina"); Dashboard.ClickSystem].
Proof.
  exact (trading_interface_needs_authentication
           [Dashboard.OnLogin; Dashboard.OnAuthSuccess JNull;
            Dashboard.OnAuthSuccess (JStr "amina"); Dashboard.ClickSystem]
           _ _ eq_refl eq_refl).
Defined.

(** X20: the language and system switches are pure toggles. On the main
    screen, clicking either one twice gives back the very same state, the
    two commute, and neither logs anything or changes the screen; on the
    splash screen the language toggle undoes itself in the same way; on
    the authentication screen neither switch exists. *)
Theorem dashboard_toggles_undo (s : Dashboard.State) :
  (Dashboard.screen s = Dashboard.Main →
   Dashboard.exec s [Dashboard.ClickLanguage; Dashboard.ClickLanguage] = Some (s, []) ∧
   Dashboard.exec s [Dashboard.ClickSystem; Dashboard.ClickSystem] = Some (s, []) ∧
   Dashboard.exec s [Dashboard.ClickLanguage; Dashboard.ClickSystem] =
     Dashboard.exec s [Dashboard.ClickSystem; Dashboard.ClickLanguage] ∧
   ∃ s', Dashboard.exec s [Dashboard.ClickLanguage; Dashboard.ClickSystem] = Some (s', []) ∧
         Dashboard.screen s' = Dashboard.Main) ∧
  (Dashboard.screen s = Dashboard.Splash →
   Dashboard.exec s [Dashboard.OnLanguageToggle; Dashboard.OnLanguageToggle] = Some (s, [])) ∧
  (Dashboard.screen s = Dashboard.AuthSystem →
   Dashboard.step s Dashboard.ClickLanguage = None ∧
   Dashboard.step s Dashboard.OnLanguageToggle = None ∧
   Dashboard.step s Dashboard.ClickSystem = None).
Proof.
  destruct s as [ar au us sp ru]. unfold Dashboard.screen. cbn.
  destruct sp, au; cbn; repeat split; try discriminate;
    unfold Dashboard.step, Dashboard.screen; cbn;
    rewrite ?negb_involutive; try reflexivity.
  eexists. split; reflexivity.
Qed.

(* --------------------------------------------------------------------- *)
(* A render that throws                                                  *)
(* --------------------------------------------------------------------- *)

(* Rows the `map` callback cannot get through, and rows it can. *)
Example rows_that_throw :
  page_renders (with_balances (JStr "rate limited") linked) = false ∧
  page_renders (with_balances (JObj ∅) linked) = false ∧
  page_renders (with_balances (JArr [JNull]) linked) = false ∧
  page_renders
    (with_balances (JArr [JObj (<["free" := JObj (<["toString" := JNum 1]> ∅)]> ∅)]) linked) =
    false ∧
  page_renders (with_balances (JArr [JNum 7; JObj ∅; JArr []]) linked) = true ∧
  page_renders (with_balances (JStr "rate limited") filled) = true.
Proof. repeat split. Qed.

(* A balances response with a string for `balances` unmounts the page: the
   string is stored, the render throws, and no button is left to click. *)
Example unusable_balances_unmount_the_page :
  exec start
    [User (TypeApiKey "k"); User (TypeApiSecret "s"); User ClickConnect;
     Settle 0 (http 200 (inr JNull));
     Settle 0 (http 200 (inr (balances_body (JStr "rate limited"))))] =
  Some ({| component := with_balances (JStr "rate limited") (with_balances (JArr []) linked);
           inflight := []; mounted := false |},
        [Fetch (PostConnect "k" "s" "default"); Fetch (GetBalances "default")]) ∧
  step {| component := with_balances (JStr "rate limited") linked;
          inflight := []; mounted := false |} (User ClickRefresh) = None ∧
  step {| component := with_balances (JStr "rate limited") linked;
          inflight := []; mounted := false |} (User ClickOrder) = None.
Proof. repeat split. Qed.

(* A page that is still mounted is one whose last render returned. *)
Lemma mounted_pages_render (evs : list Event) (w : World) (effs : list Effect) :
  exec start evs = Some (w, effs) →
  mounted w = true →
  page_renders (component w) = true.
Proof.
  assert (Hstart : mounted start = true → page_renders (component start) = true)
    by reflexivity.
  revert Hstart. generalize start as w0. revert effs.
  induction evs as [|ev evs IH]; intros effs w0 H0 Hexec; cbn in Hexec.
  - injection Hexec as <- _. exact H0.
  - destruct (step w0 ev) as [[w1 effs1]|] eqn:Hstep; [|discriminate].
    destruct (exec w1 evs) as [[w2 effs2]|] eqn:Hrest; [|discriminate].
    injection Hexec as <- _. eapply IH; [|exact Hrest].
    destruct ev as [a|i o]; cbn in Hstep.
    + destruct (mounted w0 && enabled (component w0) a); [|discriminate].
      injection Hstep as <- _. cbn. intros H. apply andb_prop in H as [_ H]. exact H.
    + destruct (inflight w0 !! i) as [req|]; [|discriminate].
      injection Hstep as <- _. cbn. intros H. apply andb_prop in H as [_ H]. exact H.
Qed.
